(** * ProductCard: the inventory-card ledger of [firs_homework.py]

    A shallow embedding of the class [ProductCard] (field setters,
    [create_card], [get_card], [write_off_card], [update_card]) and of
    the [console] branch that lists the cards, with the properties of the
    ledger proved over it.

    Python objects are modelled as follows.
    - [int] is [Z]; [float] is the IEEE-754 datatype [spec_float];
      [str] is the list of its Unicode code points.  What Python takes from
      the Unicode character database ([str.lower], the white space of
      [str.strip], the digits of [\d]) is the class [Unicode]: the
      properties hold for every instance of it.
    - A card is a [dict] with string keys: a [gmap string value].  The
      values a card holds are immutable scalars, so [card.copy()] is the
      card's value.
    - [self._cards] is a [gmap Z (gmap string value)].  The ledger is what
      [self] holds: the local [card] of [write_off_card] and [update_card]
      is an alias of the entry [self._cards[card_number]] for as long as it
      is used, and a write through the alias is a write to the entry.
    - A method is a function in a state-and-exception monad: a raised
      exception keeps the mutations made before it, as in Python.
    - [create_card] takes arguments of the types its signature annotates;
      the payload of [update_card] holds objects of any of the types of
      [value], and a setter called on the wrong type raises as the
      interpreter does. *)

From Stdlib Require Import ZArith NArith List Ascii String Lia.
From Stdlib Require Import Floats.SpecFloat.
From stdpp Require Import base option list strings gmap.

Open Scope Z_scope.

(** ** Python strings *)

(** A [str] value: the sequence of its code points. *)
Definition str : Type := list N.

(** Decoding of a UTF-8 byte sequence, so that the string literals of the
    source can be written as they are. *)
Fixpoint utf8_decode (bs : list N) : str :=
  match bs with
  | [] => []
  | b :: rest =>
      if (b <? 128)%N then b :: utf8_decode rest
      else if (b <? 224)%N then
        match rest with
        | c1 :: rest1 => ((b mod 32) * 64 + c1 mod 64)%N :: utf8_decode rest1
        | _ => []
        end
      else if (b <? 240)%N then
        match rest with
        | c1 :: c2 :: rest2 =>
            ((b mod 16) * 4096 + (c1 mod 64) * 64 + c2 mod 64)%N
              :: utf8_decode rest2
        | _ => []
        end
      else
        match rest with
        | c1 :: c2 :: c3 :: rest3 =>
            ((b mod 8) * 262144 + (c1 mod 64) * 4096 + (c2 mod 64) * 64
             + c3 mod 64)%N :: utf8_decode rest3
        | _ => []
        end
  end.

Definition u (s : string) : str :=
  utf8_decode (map N_of_ascii (list_ascii_of_string s)).

(** The part of Python's Unicode character database the class relies on:
    [str.lower], the white space removed by [str.strip], and the decimal
    digits matched by [\d]. *)
Class Unicode : Type := {
  str_lower : str -> str;
  isspace : N -> bool;
  isdecimal : N -> bool
}.

(** The Basic Latin, Latin-1 and Cyrillic blocks of the database.  The
    ledgers the properties are evaluated on use characters of these blocks
    only. *)
Definition lower_cp (c : N) : N :=
  if ((65 <=? c) && (c <=? 90))%N then (c + 32)%N
  else if ((192 <=? c) && (c <=? 222) && negb (c =? 215))%N then (c + 32)%N
  else if ((1024 <=? c) && (c <=? 1039))%N then (c + 80)%N
  else if ((1040 <=? c) && (c <=? 1071))%N then (c + 32)%N
  else c.

Definition isspace_cp (c : N) : bool :=
  (((9 <=? c) && (c <=? 13)) || ((28 <=? c) && (c <=? 32))
   || (c =? 133) || (c =? 160))%N.

Definition isdecimal_cp (c : N) : bool := ((48 <=? c) && (c <=? 57))%N.

#[export] Instance unicode_blocks : Unicode := {|
  str_lower := map lower_cp;
  isspace := isspace_cp;
  isdecimal := isdecimal_cp
|}.

(** ** Python values and exceptions *)

(** The objects a card field or an update payload holds. *)
Inductive value : Type :=
| VNone
| VInt (z : Z)
| VFloat (f : spec_float)
| VStr (s : str).

#[export] Instance spec_float_eq_dec : EqDecision spec_float.
Proof. solve_decision. Defined.

#[export] Instance value_eq_dec : EqDecision value.
Proof. solve_decision. Defined.

(** A card: the [dict] built by [create_card]. *)
Abbreviation dict := (gmap string value).

(** Exceptions.  Every [raise] of the source raises [ValueError]; its
    text is a literal or an f-string around a number or around the text of
    another exception.  [TypeError], [AttributeError] and [KeyError] are
    the ones the interpreter raises on an operand of the wrong type or on
    a missing key or attribute. *)
Inductive exn : Type :=
| ValueError (msg : message)
| TypeError
| AttributeError
| KeyError
with message : Type :=
| Text (s : str)
| NotFoundText (card_number : Z)
| CreateText (e : exn)
| UpdateText (e : exn).

(** ** The state-and-exception monad *)

Inductive result (A : Type) : Type :=
| Return (a : A)
| Raise (e : exn).
Arguments Return {A} a.
Arguments Raise {A} e.

(** The attributes of a [ProductCard] instance. *)
Record ProductCard : Type := mkProductCard {
  _cards : gmap Z dict;
  _next_number : Z
}.

Definition M (A : Type) : Type := ProductCard -> result A * ProductCard.

Definition ret {A} (a : A) : M A := fun self => (Return a, self).

Definition raise {A} (e : exn) : M A := fun self => (Raise e, self).

Definition bind {A B} (m : M A) (k : A -> M B) : M B := fun self =>
  match m self with
  | (Return a, self') => k a self'
  | (Raise e, self') => (Raise e, self')
  end.

(** [try: m except ... as e: handler e]; [catches e] tells whether the
    [except] clause catches [e]. *)
Definition try_except {A} (m : M A) (catches : exn -> bool)
    (handler : exn -> M A) : M A := fun self =>
  match m self with
  | (Return a, self') => (Return a, self')
  | (Raise e, self') =>
      if catches e then handler e self' else (Raise e, self')
  end.

#[export] Instance M_ret : MRet M := @ret.
#[export] Instance M_bind : MBind M := fun A B k m => bind m k.

(** [for x in xs: body x] *)
Fixpoint for_each {A} (xs : list A) (body : A -> M unit) : M unit :=
  match xs with
  | [] => ret tt
  | x :: xs' => body x ;; for_each xs' body
  end.

(** Lifting of an operation that only computes (and may raise). *)
Definition lift {A} (r : result A) : M A := fun self => (r, self).

(** ** Built-in operations *)

(** Truth value of an object: [not value] is [negb (truthy value)]. *)
Definition truthy (v : value) : bool :=
  match v with
  | VNone => false
  | VInt z => negb (z =? 0)
  | VFloat f => match f with S754_zero _ => false | _ => true end
  | VStr s => match s with [] => false | _ => true end
  end.

(** [value < 0] *)
Definition lt0 (v : value) : result bool :=
  match v with
  | VInt z => Return (z <? 0)
  | VFloat f => Return (SFltb f (S754_zero false))
  | VNone | VStr _ => Raise TypeError
  end.

Section Builtins.
Context {ucd : Unicode}.

(** [s.lstrip()] *)
Fixpoint lstrip (s : str) : str :=
  match s with
  | c :: s' => if isspace c then lstrip s' else s
  | [] => []
  end.

(** [s.strip()]: white space is removed at both ends. *)
Definition strip (s : str) : str := rev (lstrip (rev (lstrip s))).

(** [value.strip()]: only a [str] has the method. *)
Definition strip_method (v : value) : result str :=
  match v with
  | VStr s => Return (strip s)
  | _ => Raise AttributeError
  end.

(** [value.lower()] *)
Definition lower_method (v : value) : result str :=
  match v with
  | VStr s => Return (str_lower s)
  | _ => Raise AttributeError
  end.

(** [len(s)] *)
Definition len (s : str) : Z := Z.of_nat (length s).

(** Matching of a sequence of one-character classes at the start of [s];
    the result is what follows the match. *)
Fixpoint match_classes (classes : list (N -> bool)) (s : str) : option str :=
  match classes with
  | [] => Some s
  | cl :: classes' =>
      match s with
      | c :: s' => if cl c then match_classes classes' s' else None
      | [] => None
      end
  end.

Definition dot (c : N) : bool := (c =? 46)%N.

(** [\d{2}\.\d{2}\.\d{4}] *)
Definition date_classes : list (N -> bool) :=
  [isdecimal; isdecimal; dot; isdecimal; isdecimal; dot;
   isdecimal; isdecimal; isdecimal; isdecimal].

(** [$]: the end of the string, or the line feed that ends it. *)
Definition at_dollar (rest : str) : bool :=
  match rest with
  | [] => true
  | [c] => (c =? 10)%N
  | _ => false
  end.

(** [re.match(r"^\d{2}\.\d{2}\.\d{4}$", value)], as a truth value. *)
Definition re_match_date (v : value) : result bool :=
  match v with
  | VStr s =>
      Return (match match_classes date_classes s with
              | Some rest => at_dollar rest
              | None => false
              end)
  | _ => Raise TypeError
  end.

End Builtins.

(** ** The class [ProductCard] *)

(** The keys of [STATUSES] with their labels. *)
Definition STATUSES : list (str * str) :=
  [ (u "ожидание", u "Ожидание приема");
    (u "учтено", u "Состоит/принято к учету");
    (u "списано", u "Списано") ].

(** [key in STATUSES] *)
Definition in_STATUSES (key : str) : bool :=
  bool_decide (key ∈ STATUSES.*1).

(** [__init__] *)
Definition init : ProductCard :=
  {| _cards := ∅; _next_number := 1 |}.

(** [self._cards[card_number] = card] *)
Definition set_card (card_number : Z) (card : dict) : M unit := fun self =>
  (Return tt,
   {| _cards := <[card_number := card]> (_cards self);
      _next_number := _next_number self |}).

(** [del self._cards[card_number]] *)
Definition del_card (card_number : Z) : M unit := fun self =>
  match _cards self !! card_number with
  | Some _ =>
      (Return tt,
       {| _cards := delete card_number (_cards self);
          _next_number := _next_number self |})
  | None => (Raise KeyError, self)
  end.

(** The object [self._cards[card_number]]. *)
Definition deref (card_number : Z) : M dict := fun self =>
  match _cards self !! card_number with
  | Some card => (Return card, self)
  | None => (Raise KeyError, self)
  end.

(** [self._cards[card_number][key] = value], and [card[key] = value] for
    the alias [card] of that entry. *)
Definition setitem_card (card_number : Z) (key : string) (v : value)
    : M unit :=
  card ← deref card_number;
  set_card card_number (<[key := v]> card).

(** [card[key]] *)
Definition getitem (card : dict) (key : string) : M value :=
  match card !! key with
  | Some v => mret v
  | None => raise KeyError
  end.

Definition get_next_number : M Z := fun self =>
  (Return (_next_number self), self).

Definition set_next_number (n : Z) : M unit := fun self =>
  (Return tt, {| _cards := _cards self; _next_number := n |}).

Definition name_text : str :=
  u "Наименование должно содержать не менее двух символов".
Definition quantity_text : str := u "Количество не может быть отрицательным".
Definition status_text : str := u "Некорректное состояние".
Definition supplier_text : str := u "Поставщик должен быть указан".
Definition cost_text : str := u "Стоимость не может быть отрицательной".
Definition arrival_date_text : str :=
  u "Дата поступления должна быть в формате ДД.ММ.ГГГГ".
Definition article_text : str := u "Артикул должен быть указан".
Definition write_off_text : str :=
  10%N :: u "Списание возможно только для карточек в состоянии: Состоит/принято к учету".

Section Ledger.
Context {ucd : Unicode}.

Definition _set_name (card_number : Z) (value : value) : M unit :=
  bad ← (if negb (truthy value) then mret true
         else s ← lift (strip_method value); mret (len s <? 2));
  if bad : bool then raise (ValueError (Text name_text))
  else setitem_card card_number "name" value.

Definition _set_quantity (card_number : Z) (value : value) : M unit :=
  bad ← lift (lt0 value);
  if bad : bool then raise (ValueError (Text quantity_text))
  else setitem_card card_number "quantity" value.

Definition _set_status (card_number : Z) (value : value) : M unit :=
  status_lower ← lift (lower_method value);
  if negb (in_STATUSES status_lower)
  then raise (ValueError (Text status_text))
  else setitem_card card_number "status" (VStr status_lower).

Definition _set_supplier (card_number : Z) (value : value) : M unit :=
  bad ← (if negb (truthy value) then mret true
         else s ← lift (strip_method value); mret (len s <? 2));
  if bad : bool then raise (ValueError (Text supplier_text))
  else setitem_card card_number "supplier" value.

Definition _set_cost (card_number : Z) (value : value) : M unit :=
  bad ← lift (lt0 value);
  if bad : bool then raise (ValueError (Text cost_text))
  else setitem_card card_number "cost" value.

Definition _set_arrival_date (card_number : Z) (value : value) : M unit :=
  matched ← lift (re_match_date value);
  if negb matched then raise (ValueError (Text arrival_date_text))
  else setitem_card card_number "arrival_date" value.

Definition _set_article (card_number : Z) (value : value) : M unit :=
  bad ← (if negb (truthy value) then mret true
         else s ← lift (strip_method value);
              mret (negb (truthy (VStr s))));
  if bad : bool then raise (ValueError (Text article_text))
  else s ← lift (strip_method value);
       setitem_card card_number "article" (VStr s).

(** [except ValueError] and [except Exception] *)
Definition is_ValueError (e : exn) : bool :=
  match e with ValueError _ => true | _ => false end.

Definition is_Exception (e : exn) : bool := true.

(** The placeholder record of [create_card]. *)
Definition placeholder (temp_number : Z)
    (manufacturer location responsible notes : str) : dict :=
  list_to_map
    [ ("number", VInt temp_number);
      ("name", VStr []);
      ("quantity", VInt 0);
      ("status", VStr (u "ожидание"));
      ("supplier", VStr []);
      ("manufacturer", VStr manufacturer);
      ("cost", VFloat (S754_zero false));
      ("location", VStr location);
      ("arrival_date", VStr []);
      ("article", VStr []);
      ("responsible", VStr responsible);
      ("notes", VStr notes) ].

(** The arguments follow the annotations of the signature. *)
Definition create_card (name : str) (quantity : Z)
    (status supplier manufacturer : str) (cost : spec_float)
    (location article responsible arrival_date notes : str) : M Z :=
  temp_number ← get_next_number;
  set_card temp_number
    (placeholder temp_number manufacturer location responsible notes);;
  try_except
    (_set_name temp_number (VStr name);;
     _set_quantity temp_number (VInt quantity);;
     _set_status temp_number (VStr status);;
     _set_supplier temp_number (VStr supplier);;
     _set_cost temp_number (VFloat cost);;
     _set_article temp_number (VStr article);;
     _set_arrival_date temp_number (VStr arrival_date))
    is_ValueError
    (fun e =>
       del_card temp_number;;
       raise (ValueError (CreateText e)));;
  card_number ← get_next_number;
  set_next_number (card_number + 1);;
  mret card_number.

Definition get_card (card_number : Z) : M dict := fun self =>
  match _cards self !! card_number with
  | None => (Raise (ValueError (NotFoundText card_number)), self)
  | Some card => (Return card, self)
  end.

Definition write_off_card (card_number : Z) : M bool :=
  card ← get_card card_number;
  status ← getitem card "status";
  if bool_decide (status ≠ VStr (u "учтено"))
  then raise (ValueError (Text write_off_text))
  else
    setitem_card card_number "status" (VStr (u "списано"));;
    setitem_card card_number "quantity" (VInt 0);;
    mret true.

Definition field_setters (field : string)
    : option (Z -> value -> M unit) :=
  if String.eqb field "name" then Some _set_name
  else if String.eqb field "quantity" then Some _set_quantity
  else if String.eqb field "status" then Some _set_status
  else if String.eqb field "supplier" then Some _set_supplier
  else if String.eqb field "cost" then Some _set_cost
  else if String.eqb field "arrival_date" then Some _set_arrival_date
  else if String.eqb field "article" then Some _set_article
  else None.

(** The payload [**kwargs] is the list of its items, in iteration order. *)
Definition update_card (card_number : Z) (kwargs : list (string * value))
    : M unit :=
  card ← get_card card_number;
  let old_card := card in
  try_except
    (for_each kwargs (fun '(field, value) =>
       match field_setters field with
       | Some setter => setter card_number value
       | None =>
           (* [card] is the entry [self._cards[card_number]] *)
           card ← deref card_number;
           if bool_decide (is_Some (card !! field))
              && negb (bool_decide (field ∈ ["number"]))
           then setitem_card card_number field value
           else mret tt
       end))
    is_Exception
    (fun e =>
       set_card card_number old_card;;
       raise (ValueError (UpdateText e))).

End Ledger.

(** ** The console *)

(** The names bound in the body of [class ProductCard] and by [__init__]:
    the attributes an instance has. *)
Definition ProductCard_attributes : list string :=
  [ "STATUSES"; "__init__";
    "_get_name"; "_set_name"; "_get_quantity"; "_set_quantity";
    "_get_status"; "_set_status"; "_get_supplier"; "_set_supplier";
    "_get_cost"; "_set_cost"; "_get_arrival_date"; "_set_arrival_date";
    "_get_article"; "_set_article";
    "create_card"; "get_card"; "write_off_card"; "update_card";
    "display_card"; "_cards"; "_next_number" ].

(** [inventory.<name>]: attribute lookup on the instance. *)
Definition getattr (name : string) : M unit :=
  if bool_decide (name ∈ ProductCard_attributes) then mret tt
  else raise AttributeError.

(** The branch [choice == 5] of [console], up to the evaluation of
    [inventory.list_cards]; no handler encloses it. *)
Definition console_choice_5 : M unit := getattr "list_cards".

(** ** Calls of the public operations *)

Inductive call : Type :=
| CreateCard (name : str) (quantity : Z) (status supplier manufacturer : str)
    (cost : spec_float)
    (location article responsible arrival_date notes : str)
| GetCard (card_number : Z)
| WriteOffCard (card_number : Z)
| UpdateCard (card_number : Z) (kwargs : list (string * value)).

Section Calls.
Context {ucd : Unicode}.

(** The ledger after a call, whether it returned or raised. *)
Definition perform (c : call) (self : ProductCard) : ProductCard :=
  match c with
  | CreateCard name quantity status supplier manufacturer cost location
      article responsible arrival_date notes =>
      (create_card name quantity status supplier manufacturer cost location
         article responsible arrival_date notes self).2
  | GetCard card_number => (get_card card_number self).2
  | WriteOffCard card_number => (write_off_card card_number self).2
  | UpdateCard card_number kwargs => (update_card card_number kwargs self).2
  end.

(** The ledgers a caller can bring about from [ProductCard()]. *)
Inductive reachable : ProductCard -> Prop :=
| reachable_init : reachable init
| reachable_call c self : reachable self -> reachable (perform c self).

(** [m] raises when run on [self]. *)
Definition raises {A} (m : M A) (self : ProductCard) : bool :=
  match m self with
  | (Raise _, _) => true
  | (Return _, _) => false
  end.

(** The entry of an update payload has a registered setter, and the
    setter raises on the entry's value. *)
Definition entry_fails (card_number : Z) (self : ProductCard)
    (entry : string * value) : bool :=
  match field_setters entry.1 with
  | Some setter => raises (setter card_number entry.2) self
  | None => false
  end.

(** The ledger of [create_card] when the setters run: the placeholder is
    stored under the allocated number. *)
Definition staged (manufacturer location responsible notes : str)
    (self : ProductCard) : ProductCard :=
  (set_card (_next_number self)
     (placeholder (_next_number self) manufacturer location responsible
        notes) self).2.

(** Some setter of [create_card] raises on its argument. *)
Definition some_setter_raises (name : str) (quantity : Z)
    (status supplier : str) (cost : spec_float)
    (article arrival_date : str) (st : ProductCard) : bool :=
  let n := _next_number st in
  raises (_set_name n (VStr name)) st
  || raises (_set_quantity n (VInt quantity)) st
  || raises (_set_status n (VStr status)) st
  || raises (_set_supplier n (VStr supplier)) st
  || raises (_set_cost n (VFloat cost)) st
  || raises (_set_article n (VStr article)) st
  || raises (_set_arrival_date n (VStr arrival_date)) st.

End Calls.

(** A value the field [status] may hold. *)
Definition status_value (v : value) : Prop :=
  ∃ s, v = VStr s ∧ in_STATUSES s = true.

(** The card's status is a key of [STATUSES]. *)
Definition status_enumerated (card : dict) : Prop :=
  ∃ v, card !! "status" = Some v ∧ status_value v.

(** Every stored number is below the counter. *)
Definition numbers_below_next (self : ProductCard) : Prop :=
  ∀ k card, _cards self !! k = Some card → k < _next_number self.

(** The call is an update of card [n] with an entry for [status]. *)
Definition edits_status (n : Z) (c : call) : bool :=
  match c with
  | UpdateCard m kwargs => (m =? n) && bool_decide ("status" ∈ kwargs.*1)
  | _ => false
  end.

(** ** A ledger to evaluate on *)

(** The float [0.5]. *)
Definition cost_half : spec_float := S754_finite false 4503599627370496 (-53).

(** [create_card("Bolt M6", 100, "ожидание", "AcmeCo", "AcmeMfg", 0.5,
    "Shelf A", "ART-1", "J.Doe", "01.01.2024")] *)
Definition create_bolt : call :=
  CreateCard (u "Bolt M6") 100 (u "ожидание") (u "AcmeCo") (u "AcmeMfg") cost_half
    (u "Shelf A") (u "ART-1") (u "J.Doe") (u "01.01.2024") [].

(** The same call with the empty name. *)
Definition create_nameless : call :=
  CreateCard [] 100 (u "ожидание") (u "AcmeCo") (u "AcmeMfg") cost_half
    (u "Shelf A") (u "ART-1") (u "J.Doe") (u "01.01.2024") [].

(** The ledger with the card 1 pending, registered, and written off. *)
Definition ledger_pending : ProductCard := perform create_bolt init.

Definition ledger_registered : ProductCard :=
  perform (UpdateCard 1 [("status", VStr (u "учтено"))]) ledger_pending.

Definition ledger_written_off : ProductCard :=
  perform (WriteOffCard 1) ledger_registered.

(** The card [n], when it is stored. *)
Definition card_of (self : ProductCard) (n : Z) : dict :=
  default ∅ (_cards self !! n).

(** The field [key] of the card [n]. *)
Definition field_of (self : ProductCard) (n : Z) (key : string)
    : option value :=
  _cards self !! n ≫= (.!! key).

(** ** The getters *)

Definition _get_name (card_number : Z) : M value :=
  card ← get_card card_number;
  getitem card "name".

Definition _get_quantity (card_number : Z) : M value :=
  card ← get_card card_number;
  getitem card "quantity".

Definition _get_status (card_number : Z) : M value :=
  card ← get_card card_number;
  getitem card "status".

Definition _get_supplier (card_number : Z) : M value :=
  card ← get_card card_number;
  getitem card "supplier".

Definition _get_cost (card_number : Z) : M value :=
  card ← get_card card_number;
  getitem card "cost".

Definition _get_arrival_date (card_number : Z) : M value :=
  card ← get_card card_number;
  getitem card "arrival_date".

Definition _get_article (card_number : Z) : M value :=
  card ← get_card card_number;
  getitem card "article".

(** [self.STATUSES.get(key, default)] *)
Definition STATUSES_get (key : value) (default : value) : value :=
  match key with
  | VStr s =>
      match list_find (λ entry : str * str, bool_decide (entry.1 = s))
              STATUSES with
      | Some (_, (_, label)) => VStr label
      | None => default
      end
  | _ => default
  end.

(** [self.STATUSES.get(card["status"], card["status"])], the status that
    [display_card] and the listing of [console] print. *)
Definition status_label (card : dict) : M value :=
  key ← getitem card "status";
  default ← getitem card "status";
  mret (STATUSES_get key default).

(** ** Ledgers and cards *)

Section Cards.
Context {ucd : Unicode}.

(** The ledger after the calls [cs], made one after the other. *)
Definition perform_all (cs : list call) (self : ProductCard) : ProductCard :=
  foldl (λ self c, perform c self) self cs.

(** The card a [create_card] that returns has stored under [n]. *)
Definition created_card (n : Z) (name : str) (quantity : Z)
    (status supplier manufacturer : str) (cost : spec_float)
    (location article responsible arrival_date notes : str) : dict :=
  list_to_map
    [ ("number", VInt n);
      ("name", VStr name);
      ("quantity", VInt quantity);
      ("status", VStr (str_lower status));
      ("supplier", VStr supplier);
      ("manufacturer", VStr manufacturer);
      ("cost", VFloat cost);
      ("location", VStr location);
      ("arrival_date", VStr arrival_date);
      ("article", VStr (strip article));
      ("responsible", VStr responsible);
      ("notes", VStr notes) ].

(** [s] is accepted by the pattern of [_set_arrival_date]. *)
Definition date_accepted (s : str) : bool :=
  match match_classes date_classes s with
  | Some rest => at_dollar rest
  | None => false
  end.

(** The fields of the card [k] are as the setters leave them: the number
    is [k], a name and a supplier have two characters or more once
    stripped, a quantity and a cost are numbers that are not below 0, the
    status is a key of [STATUSES], the date is accepted by the pattern, the
    article is a stripped string that is not empty. *)
Record validated (k : Z) (card : dict) : Prop := {
  validated_number : card !! "number" = Some (VInt k);
  validated_name :
    ∃ s, card !! "name" = Some (VStr s) ∧ (len (strip s) <? 2) = false;
  validated_quantity :
    ∃ q, card !! "quantity" = Some q ∧ lt0 q = Return false;
  validated_status : status_enumerated card;
  validated_supplier :
    ∃ s, card !! "supplier" = Some (VStr s) ∧ (len (strip s) <? 2) = false;
  validated_cost : ∃ c, card !! "cost" = Some c ∧ lt0 c = Return false;
  validated_arrival_date :
    ∃ s, card !! "arrival_date" = Some (VStr s) ∧ date_accepted s = true;
  validated_article :
    ∃ s, card !! "article" = Some (VStr (strip s))
         ∧ truthy (VStr (strip s)) = true
}.

End Cards.

(** The keys of the dictionary that [create_card] builds. *)
Definition card_keys : list string :=
  [ "number"; "name"; "quantity"; "status"; "supplier"; "manufacturer";
    "cost"; "location"; "arrival_date"; "article"; "responsible"; "notes" ].

(** The card has the keys of [card_keys] and no other. *)
Definition has_card_keys (card : dict) : Prop :=
  dom card = list_to_set card_keys.

(** A second ledger to evaluate on: the card "Bolt M6" and a card
    "Nut M6", written in upper case and with white space around. *)
Definition create_nut : call :=
  CreateCard (u " Nut M6 ") 40 (u "УЧТЕНО") (u "AcmeCo") (u "AcmeMfg")
    cost_half (u "Shelf B") (u " ART-2 ") (u "J.Doe") (u "31.13.2024") [].

Definition ledger_two : ProductCard := perform create_nut ledger_pending.

(** * Properties *)

(** ** The storage primitives *)

Lemma setitem_card_Some n key v self card :
  _cards self !! n = Some card →
  setitem_card n key v self =
    (Return tt,
     {| _cards := <[n := <[key := v]> card]> (_cards self);
        _next_number := _next_number self |}).
Proof.
  intros Hn. unfold setitem_card, deref, set_card, mbind, M_bind, bind.
  by rewrite Hn.
Qed.

Lemma setitem_card_None n key v self :
  _cards self !! n = None →
  setitem_card n key v self = (Raise KeyError, self).
Proof.
  intros Hn. unfold setitem_card, deref, mbind, M_bind, bind.
  by rewrite Hn.
Qed.

Lemma ProductCard_eq self self' :
  _cards self = _cards self' → _next_number self = _next_number self' →
  self = self'.
Proof. destruct self, self'; simpl; congruence. Qed.

Lemma setitem_card_no_raise key v e :
  ¬ ∀ n self, setitem_card n key v self = (Raise e, self).
Proof.
  intros H.
  specialize (H 0 {| _cards := {[0 := ∅]}; _next_number := 0 |}).
  by rewrite (setitem_card_Some _ _ _ _ ∅) in H.
Qed.

Lemma setitem_card_inj key v v' :
  (∀ n self, setitem_card n key v self = setitem_card n key v' self) →
  v = v'.
Proof.
  intros H.
  specialize (H 0 {| _cards := {[0 := ∅]}; _next_number := 0 |}).
  rewrite !(setitem_card_Some _ _ _ _ ∅) in H by done.
  apply (f_equal (λ r : result unit * ProductCard,
                    _cards r.2 !! 0 ≫= (.!! key))) in H.
  cbn [snd _cards] in H.
  rewrite !lookup_insert_eq in H. cbn [mbind option_bind] in H.
  rewrite !lookup_insert_eq in H. congruence.
Qed.

(** ** The setters: a setter either raises, whatever the ledger, or stores
    one value under its own key. *)

Section Setters.
Context {ucd : Unicode}.

Ltac setter_unfold :=
  unfold _set_name, _set_quantity, _set_status, _set_supplier, _set_cost,
    _set_arrival_date, _set_article, mbind, M_bind, bind, mret, M_ret, ret,
    lift, raise; simpl.

Ltac raise_with e :=
  left; exists e; split; [done|]; intros; setter_unfold;
  repeat case_match; try done; try lia.

Lemma _set_name_cases v :
  (∃ e, ((∃ s, v = VStr s) → is_ValueError e = true)
        ∧ ∀ n self, _set_name n v self = (Raise e, self))
  ∨ ((∃ s, v = VStr s)
     ∧ ∀ n self, _set_name n v self = setitem_card n "name" v self).
Proof.
  destruct v as [|z|f|s].
  - raise_with (ValueError (Text name_text)).
  - destruct (decide (z = 0)) as [->|Hz].
    + raise_with (ValueError (Text name_text)).
    + left. exists AttributeError. split; [by intros [? ?]|].
      intros. setter_unfold. by destruct (Z.eqb_spec z 0).
  - destruct f as [sg|sg| |sg m e];
      [raise_with (ValueError (Text name_text))|..];
      left; exists AttributeError; (split; [by intros [? ?]|]);
      intros; by setter_unfold.
  - destruct (negb (truthy (VStr s)) || (len (strip s) <? 2)) eqn:Hbad.
    + left. exists (ValueError (Text name_text)). split; [done|].
      intros. setter_unfold.
      destruct s; [done|]. simpl in Hbad. by rewrite Hbad.
    + right. split; [eauto|]. intros. setter_unfold.
      destruct s; [done|]. simpl in Hbad. by rewrite Hbad.
Qed.

Lemma _set_supplier_cases v :
  (∃ e, ((∃ s, v = VStr s) → is_ValueError e = true)
        ∧ ∀ n self, _set_supplier n v self = (Raise e, self))
  ∨ ((∃ s, v = VStr s)
     ∧ ∀ n self, _set_supplier n v self = setitem_card n "supplier" v self).
Proof.
  destruct v as [|z|f|s].
  - raise_with (ValueError (Text supplier_text)).
  - destruct (decide (z = 0)) as [->|Hz].
    + raise_with (ValueError (Text supplier_text)).
    + left. exists AttributeError. split; [by intros [? ?]|].
      intros. setter_unfold. by destruct (Z.eqb_spec z 0).
  - destruct f as [sg|sg| |sg m e];
      [raise_with (ValueError (Text supplier_text))|..];
      left; exists AttributeError; (split; [by intros [? ?]|]);
      intros; by setter_unfold.
  - destruct (negb (truthy (VStr s)) || (len (strip s) <? 2)) eqn:Hbad.
    + left. exists (ValueError (Text supplier_text)). split; [done|].
      intros. setter_unfold.
      destruct s; [done|]. simpl in Hbad. by rewrite Hbad.
    + right. split; [eauto|]. intros. setter_unfold.
      destruct s; [done|]. simpl in Hbad. by rewrite Hbad.
Qed.

Lemma _set_article_cases v :
  (∃ e, ((∃ s, v = VStr s) → is_ValueError e = true)
        ∧ ∀ n self, _set_article n v self = (Raise e, self))
  ∨ (∃ s, v = VStr s
     ∧ ∀ n self,
         _set_article n v self
         = setitem_card n "article" (VStr (strip s)) self).
Proof.
  destruct v as [|z|f|s].
  - raise_with (ValueError (Text article_text)).
  - destruct (decide (z = 0)) as [->|Hz].
    + raise_with (ValueError (Text article_text)).
    + left. exists AttributeError. split; [by intros [? ?]|].
      intros. setter_unfold. by destruct (Z.eqb_spec z 0).
  - destruct f as [sg|sg| |sg m e];
      [raise_with (ValueError (Text article_text))|..];
      left; exists AttributeError; (split; [by intros [? ?]|]);
      intros; by setter_unfold.
  - destruct (negb (truthy (VStr s)) || negb (truthy (VStr (strip s))))
      eqn:Hbad.
    + left. exists (ValueError (Text article_text)). split; [done|].
      intros. setter_unfold.
      destruct s; [done|]. simpl in Hbad. by rewrite Hbad.
    + right. exists s. split; [done|]. intros. setter_unfold.
      destruct s; [done|]. simpl in Hbad. by rewrite Hbad.
Qed.

Lemma _set_quantity_cases v :
  (∃ e, ((∃ z, v = VInt z) → is_ValueError e = true)
        ∧ ∀ n self, _set_quantity n v self = (Raise e, self))
  ∨ (∀ n self, _set_quantity n v self = setitem_card n "quantity" v self).
Proof.
  destruct v as [|z|f|s].
  - left. exists TypeError. split; [by intros [? ?]|]. intros. by setter_unfold.
  - destruct (z <? 0) eqn:Hz.
    + left. exists (ValueError (Text quantity_text)). split; [done|].
      intros. setter_unfold. by rewrite Hz.
    + right. intros. setter_unfold. by rewrite Hz.
  - destruct (SFltb f (S754_zero false)) eqn:Hf.
    + left. exists (ValueError (Text quantity_text)). split; [done|].
      intros. setter_unfold. by rewrite Hf.
    + right. intros. setter_unfold. by rewrite Hf.
  - left. exists TypeError. split; [by intros [? ?]|]. intros. by setter_unfold.
Qed.

Lemma _set_cost_cases v :
  (∃ e, ((∃ f, v = VFloat f) → is_ValueError e = true)
        ∧ ∀ n self, _set_cost n v self = (Raise e, self))
  ∨ (∀ n self, _set_cost n v self = setitem_card n "cost" v self).
Proof.
  destruct v as [|z|f|s].
  - left. exists TypeError. split; [by intros [? ?]|]. intros. by setter_unfold.
  - destruct (z <? 0) eqn:Hz.
    + left. exists (ValueError (Text cost_text)). split; [done|].
      intros. setter_unfold. by rewrite Hz.
    + right. intros. setter_unfold. by rewrite Hz.
  - destruct (SFltb f (S754_zero false)) eqn:Hf.
    + left. exists (ValueError (Text cost_text)). split; [done|].
      intros. setter_unfold. by rewrite Hf.
    + right. intros. setter_unfold. by rewrite Hf.
  - left. exists TypeError. split; [by intros [? ?]|]. intros. by setter_unfold.
Qed.

Lemma _set_status_cases v :
  (∃ e, ((∃ s, v = VStr s) → is_ValueError e = true)
        ∧ ∀ n self, _set_status n v self = (Raise e, self))
  ∨ (∃ s, v = VStr s ∧ in_STATUSES (str_lower s) = true
     ∧ ∀ n self,
         _set_status n v self
         = setitem_card n "status" (VStr (str_lower s)) self).
Proof.
  destruct v as [|z|f|s].
  - left. exists AttributeError. split; [by intros [? ?]|]. intros. by setter_unfold.
  - left. exists AttributeError. split; [by intros [? ?]|]. intros. by setter_unfold.
  - left. exists AttributeError. split; [by intros [? ?]|]. intros. by setter_unfold.
  - destruct (in_STATUSES (str_lower s)) eqn:Hin.
    + right. exists s. do 2 (split; [done|]). intros. setter_unfold.
      by rewrite Hin.
    + left. exists (ValueError (Text status_text)). split; [done|].
      intros. setter_unfold. by rewrite Hin.
Qed.

Lemma _set_arrival_date_cases v :
  (∃ e, ((∃ s, v = VStr s) → is_ValueError e = true)
        ∧ ∀ n self, _set_arrival_date n v self = (Raise e, self))
  ∨ (∀ n self,
       _set_arrival_date n v self = setitem_card n "arrival_date" v self).
Proof.
  destruct v as [|z|f|s].
  - left. exists TypeError. split; [by intros [? ?]|]. intros. by setter_unfold.
  - left. exists TypeError. split; [by intros [? ?]|]. intros. by setter_unfold.
  - left. exists TypeError. split; [by intros [? ?]|]. intros. by setter_unfold.
  - assert (∃ b, re_match_date (VStr s) = Return b) as [b Hb] by (by eexists).
    destruct b.
    + right. intros.
      unfold _set_arrival_date, mbind, M_bind, bind, lift. by rewrite Hb.
    + left. exists (ValueError (Text arrival_date_text)). split; [done|].
      intros.
      unfold _set_arrival_date, mbind, M_bind, bind, lift. by rewrite Hb.
Qed.

Lemma field_setters_None field :
  field_setters field = None →
  field ≠ "name" ∧ field ≠ "quantity" ∧ field ≠ "status"
  ∧ field ≠ "supplier" ∧ field ≠ "cost" ∧ field ≠ "arrival_date"
  ∧ field ≠ "article".
Proof.
  unfold field_setters. intros Hf.
  repeat split; intros ->; simpl in Hf; discriminate.
Qed.

Lemma field_setters_Some field setter :
  field_setters field = Some setter →
  field ∈ ["name"; "quantity"; "status"; "supplier"; "cost";
           "arrival_date"; "article"].
Proof.
  unfold field_setters.
  repeat match goal with
         | |- context [String.eqb field ?k] =>
             destruct (String.eqb_spec field k) as [->|_]; [set_solver|]
         end.
  discriminate.
Qed.

(** A registered setter either raises, whatever the card and the ledger,
    or stores one value under the key it is registered for. *)
Lemma field_setters_cases field setter v :
  field_setters field = Some setter →
  (∃ e, ∀ n self, setter n v self = (Raise e, self))
  ∨ (∃ v', (field = "status" → status_value v')
           ∧ ∀ n self, setter n v self = setitem_card n field v' self).
Proof.
  unfold field_setters.
  repeat match goal with
         | |- context [String.eqb field ?k] =>
             destruct (String.eqb_spec field k) as [->|_];
             [intros [= <-]|]
         end; try discriminate.
  - destruct (_set_name_cases v) as [(e & _ & Hr)|[_ Hs]]; [eauto|].
    right. by exists v.
  - destruct (_set_quantity_cases v) as [(e & _ & Hr)|Hs]; [eauto|].
    right. by exists v.
  - destruct (_set_status_cases v) as [(e & _ & Hr)|(s & -> & Hin & Hs)];
      [eauto|].
    right. exists (VStr (str_lower s)). split; [|done].
    intros _. by exists (str_lower s).
  - destruct (_set_supplier_cases v) as [(e & _ & Hr)|[_ Hs]]; [eauto|].
    right. by exists v.
  - destruct (_set_cost_cases v) as [(e & _ & Hr)|Hs]; [eauto|].
    right. by exists v.
  - destruct (_set_arrival_date_cases v) as [(e & _ & Hr)|Hs]; [eauto|].
    right. by exists v.
  - destruct (_set_article_cases v) as [(e & _ & Hr)|(s & -> & Hs)]; [eauto|].
    right. by exists (VStr (strip s)).
Qed.

End Setters.

(** ** The loop of [update_card] *)

Section UpdateLoop.
Context {ucd : Unicode}.

(** The body of the loop of [update_card]. *)
Local Abbreviation entry_body n :=
  (fun '(field, value) =>
     match field_setters field with
     | Some setter => setter (n : Z) value
     | None =>
         card ← deref n;
         if bool_decide (is_Some (card !! field))
            && negb (bool_decide (field ∈ ["number"]))
         then setitem_card n field value
         else mret tt
     end).


(** One entry of the payload: its setter raises, or the entry is skipped, or
    one value is written into the card under the entry's key. *)
Lemma entry_body_cases n field v self card :
  _cards self !! n = Some card →
  (∃ e setter, entry_body n (field, v) self = (Raise e, self)
        ∧ field_setters field = Some setter
        ∧ ∀ n' self', setter n' v self' = (Raise e, self'))
  ∨ (entry_body n (field, v) self = (Return tt, self)
     ∧ field_setters field = None)
  ∨ (∃ v',
       entry_body n (field, v) self
       = (Return tt,
          {| _cards := <[n := <[field := v']> card]> (_cards self);
             _next_number := _next_number self |})
       ∧ field ≠ "number"
       ∧ (field = "status" → status_value v')
       ∧ (field_setters field = None → is_Some (card !! field))
       ∧ (∀ setter, field_setters field = Some setter →
            ∀ n' self', setter n' v self' = setitem_card n' field v' self')).
Proof.
  intros Hcard. simpl.
  destruct (field_setters field) as [setter|] eqn:Hf.
  - destruct (field_setters_cases field setter v Hf)
      as [[e Hr]|(v' & Hst & Hs)].
    + left. exists e, setter. by rewrite Hr.
    + right. right. exists v'.
      rewrite Hs, (setitem_card_Some _ _ _ _ card) by done.
      split_and!; [done| |done|done|by intros ? [= <-]].
      intros ->. discriminate.
  - unfold mbind, M_bind, bind, deref. rewrite Hcard.
    destruct (bool_decide (is_Some (card !! field))) eqn:Hin; simpl;
      [destruct (bool_decide (field ∈ ["number"])) eqn:Hnum; simpl|].
    + by right; left.
    + right. right. exists v.
      rewrite (setitem_card_Some _ _ _ _ card) by done.
      apply bool_decide_eq_false in Hnum. apply bool_decide_eq_true in Hin.
      split_and!; [done|set_solver| |done|done].
      intros ->. discriminate.
    + by right; left.
Qed.

(** The loop changes nothing but the card, and in it only keys of the
    payload, never [number]; a status it stores is enumerated; a key that is
    neither in the card nor registered stays out of the card. *)
Lemma update_loop_frame n kwargs : ∀ self card r self',
  _cards self !! n = Some card →
  for_each kwargs (entry_body n) self = (r, self') →
  ∃ card',
    self' = {| _cards := <[n := card']> (_cards self);
               _next_number := _next_number self |}
    ∧ (∀ key, key ∉ kwargs.*1 → card' !! key = card !! key)
    ∧ card' !! "number" = card !! "number"
    ∧ (status_enumerated card → status_enumerated card')
    ∧ (∀ key, field_setters key = None → card !! key = None →
              card' !! key = None).
Proof.
  induction kwargs as [|[field v] kwargs IH]; intros self card r self' Hcard.
  - intros Hloop. injection Hloop as <- <-. exists card. split_and!; try done.
    apply ProductCard_eq; simpl; [|done]. by rewrite insert_id.
  - cbn [for_each]. unfold mbind at 1, M_bind at 1, bind at 1.
    destruct (entry_body_cases n field v self card Hcard)
      as [(e & ? & Hr1 & _)|[[Hr1 _]|(v' & Hr1 & Hnum & Hst & Hin & _)]].
    + rewrite Hr1. intros Hloop. injection Hloop as <- <-.
      exists card. split_and!; try done.
      apply ProductCard_eq; simpl; [|done]. by rewrite insert_id.
    + rewrite Hr1. intros Hloop.
      destruct (IH _ _ _ _ Hcard Hloop) as (card' & -> & Hk & Hn & Hs & Hu).
      exists card'. split_and!; try done.
      intros key Hkey. apply Hk.
      cbn in Hkey. by apply not_elem_of_cons in Hkey as [_ ?].
    + rewrite Hr1. intros Hloop.
      eapply IH in Hloop; [|simpl; apply lookup_insert_eq].
      destruct Hloop as (card' & -> & Hk & Hn & Hs & Hu).
      exists card'. simpl. split_and!.
      * by rewrite insert_insert_eq.
      * intros key Hkey. cbn in Hkey.
        apply not_elem_of_cons in Hkey as [Hne Hkey]. rewrite Hk by done.
        apply lookup_insert_ne. by intros <-.
      * rewrite Hn. by apply lookup_insert_ne.
      * intros (sv & Hsv & Hval). apply Hs.
        destruct (decide (field = "status")) as [->|Hne].
        -- exists v'. split; [apply lookup_insert_eq|auto].
        -- exists sv. split; [|done]. by rewrite lookup_insert_ne.
      * intros key Hkey Hnone. apply Hu; [done|].
        rewrite lookup_insert_ne; [done|].
        intros ->. destruct (field_setters key) eqn:Hf; [done|].
        destruct (Hin eq_refl) as [? ?]. congruence.
Qed.

Lemma for_each_app {A} (xs ys : list A) body self :
  for_each (xs ++ ys) body self
  = match for_each xs body self with
    | (Return _, self1) => for_each ys body self1
    | (Raise e, self1) => (Raise e, self1)
    end.
Proof.
  revert self. induction xs as [|x xs IH]; intros self; [done|].
  cbn [app for_each]. unfold mbind, M_bind, bind.
  destruct (body x self) as [[[]|e] self1]; [apply IH|done].
Qed.

(** An entry whose setter raises on the ledger of the call raises on every
    ledger. *)
Lemma entry_fails_raises n self0 field v :
  is_Some (_cards self0 !! n) →
  entry_fails n self0 (field, v) = true →
  ∀ self, ∃ e, entry_body n (field, v) self = (Raise e, self).
Proof.
  intros [card0 Hcard0]. unfold entry_fails, raises. simpl.
  destruct (field_setters field) as [setter|] eqn:Hf; [|done].
  destruct (field_setters_cases field setter v Hf) as [[e Hr]|(v' & _ & Hs)].
  - intros _ self. exists e. apply Hr.
  - by rewrite Hs, (setitem_card_Some _ _ _ _ card0).
Qed.

Lemma update_loop_raises n self0 kwargs :
  is_Some (_cards self0 !! n) →
  existsb (entry_fails n self0) kwargs = true →
  ∀ self card, _cards self !! n = Some card →
  ∃ e self', for_each kwargs (entry_body n) self = (Raise e, self').
Proof.
  intros Hsome. induction kwargs as [|[field v] kwargs IH]; [done|].
  cbn [existsb]. intros Hex self card Hcard.
  cbn [for_each]. unfold mbind at 1, M_bind at 1, bind at 1.
  destruct (entry_fails n self0 (field, v)) eqn:Hhead.
  - destruct (entry_fails_raises n self0 field v Hsome Hhead self) as [e He].
    rewrite He. eauto.
  - simpl in Hex.
    destruct (entry_body_cases n field v self card Hcard)
      as [(e & ? & Hr1 & _)|[[Hr1 _]|(v' & Hr1 & _)]]; rewrite Hr1.
    + eauto.
    + by eapply IH.
    + eapply IH; [done|]. simpl. apply lookup_insert_eq.
Qed.

(** Conversely, the loop returns when no entry fails. *)
Lemma update_loop_returns n self0 kwargs :
  is_Some (_cards self0 !! n) →
  existsb (entry_fails n self0) kwargs = false →
  ∀ self card, _cards self !! n = Some card →
  ∃ self', for_each kwargs (entry_body n) self = (Return tt, self').
Proof.
  intros [card0 Hcard0].
  induction kwargs as [|[field v] kwargs IH]; [by eexists|].
  cbn [existsb]. intros [Hhead Hex]%orb_false_elim self card Hcard.
  cbn [for_each]. unfold mbind at 1, M_bind at 1, bind at 1.
  destruct (entry_body_cases n field v self card Hcard)
    as [(e & setter & Hr1 & Hf & Hr)|[[Hr1 _]|(v' & Hr1 & _)]]; rewrite Hr1.
  - unfold entry_fails, raises in Hhead. simpl in Hhead.
    by rewrite Hf, Hr in Hhead.
  - by eapply IH.
  - eapply IH; [done|]. simpl. apply lookup_insert_eq.
Qed.

(** An exception of the loop is the one a registered setter raises on an
    entry of the payload. *)
Lemma update_loop_raise_origin n kwargs : ∀ self card e self',
  _cards self !! n = Some card →
  for_each kwargs (entry_body n) self = (Raise e, self') →
  ∃ field v setter,
    (field, v) ∈ kwargs ∧ field_setters field = Some setter
    ∧ ∀ n' self1, setter n' v self1 = (Raise e, self1).
Proof.
  induction kwargs as [|[field v] kwargs IH]; intros self card e self' Hcard;
    [done|].
  cbn [for_each]. unfold mbind at 1, M_bind at 1, bind at 1.
  destruct (entry_body_cases n field v self card Hcard)
    as [(e1 & setter & Hr1 & Hf & Hr)|[[Hr1 _]|(v' & Hr1 & _)]]; rewrite Hr1.
  - intros [= <- <-]. exists field, v, setter. split_and!; [set_solver|done..].
  - intros Hloop.
    destruct (IH _ _ _ _ Hcard Hloop) as (f & w & st & Hin & ?).
    exists f, w, st. split; [by apply list_elem_of_further|done].
  - intros Hloop. eapply IH in Hloop; [|simpl; apply lookup_insert_eq].
    destruct Hloop as (f & w & st & Hin & ?).
    exists f, w, st. split; [by apply list_elem_of_further|done].
Qed.

(** After a loop that returns, a registered key of the payload holds the
    value its setter stores. *)
Lemma update_loop_stored n kwargs : ∀ self card self',
  _cards self !! n = Some card →
  for_each kwargs (entry_body n) self = (Return tt, self') →
  NoDup kwargs.*1 →
  ∃ card',
    _cards self' !! n = Some card'
    ∧ ∀ field v setter,
        (field, v) ∈ kwargs → field_setters field = Some setter →
        ∃ v', (∀ n' self1, setter n' v self1 = setitem_card n' field v' self1)
              ∧ card' !! field = Some v'.
Proof.
  induction kwargs as [|[field v] kwargs IH]; intros self card self' Hcard.
  - intros [= <-] _. exists card. split; [done|]. set_solver.
  - cbn [for_each]. unfold mbind at 1, M_bind at 1, bind at 1.
    rewrite fmap_cons, NoDup_cons. simpl.
    destruct (entry_body_cases n field v self card Hcard)
      as [(e1 & ? & Hr1 & _)|[[Hr1 Hf]|(v' & Hr1 & _ & _ & _ & Hs)]];
      rewrite Hr1; [done|..]; intros Hloop [Hnotin Hnodup].
    + destruct (IH _ _ _ Hcard Hloop Hnodup) as (card' & Hc' & Hst).
      exists card'. split; [done|].
      intros f w st [[= -> ->]|Hin]%elem_of_cons Hfs; [congruence|eauto].
    + pose proof Hloop as Hloop'.
      eapply IH in Hloop; [|simpl; apply lookup_insert_eq|done].
      destruct Hloop as (card' & Hc' & Hst).
      exists card'. split; [done|].
      intros f w st [[= -> ->]|Hin]%elem_of_cons Hfs; [|eauto].
      exists v'. split; [by apply Hs|].
      eapply update_loop_frame in Hloop'; [|simpl; apply lookup_insert_eq].
      destruct Hloop' as (card'' & -> & Hk & _). simpl in Hc'.
      rewrite lookup_insert_eq in Hc'. injection Hc' as ->.
      rewrite Hk by done. apply lookup_insert_eq.
Qed.

Lemma update_card_unfold n kwargs self card :
  _cards self !! n = Some card →
  update_card n kwargs self
  = match for_each kwargs (entry_body n) self with
    | (Return a, self') => (Return a, self')
    | (Raise e, self') =>
        (Raise (ValueError (UpdateText e)),
         {| _cards := <[n := card]> (_cards self');
            _next_number := _next_number self' |})
    end.
Proof.
  intros Hcard. unfold update_card, mbind, M_bind, bind, get_card.
  rewrite Hcard. reflexivity.
Qed.

(** The two outcomes of [update_card] on a stored card. *)
Lemma update_card_cases n kwargs self card :
  _cards self !! n = Some card →
  (∃ e self',
     for_each kwargs (entry_body n) self = (Raise e, self')
     ∧ update_card n kwargs self = (Raise (ValueError (UpdateText e)), self))
  ∨ (∃ card',
       let self' := {| _cards := <[n := card']> (_cards self);
                       _next_number := _next_number self |} in
       for_each kwargs (entry_body n) self = (Return tt, self')
       ∧ update_card n kwargs self = (Return tt, self')
       ∧ (∀ key, key ∉ kwargs.*1 → card' !! key = card !! key)
       ∧ card' !! "number" = card !! "number"
       ∧ (status_enumerated card → status_enumerated card')).
Proof.
  intros Hcard. rewrite (update_card_unfold _ _ _ _ Hcard).
  destruct (for_each kwargs (entry_body n) self) as [r self'] eqn:Hloop.
  destruct (update_loop_frame n kwargs _ _ _ _ Hcard Hloop)
    as (card' & -> & Hk & Hn & Hs & _).
  destruct r as [[]|e].
  - right. exists card'. by split_and!.
  - left. exists e. eexists. split; [done|]. simpl.
    f_equal. apply ProductCard_eq; simpl; [|done].
    by rewrite insert_insert_eq, insert_id.
Qed.

(** An entry whose key is neither registered nor in the card is skipped. *)
Lemma update_loop_skip n kw1 field v kw2 self card :
  _cards self !! n = Some card →
  field_setters field = None →
  card !! field = None →
  for_each (kw1 ++ (field, v) :: kw2) (entry_body n) self
  = for_each (kw1 ++ kw2) (entry_body n) self.
Proof.
  intros Hcard Hf Hnone. rewrite !for_each_app.
  destruct (for_each kw1 (entry_body n) self) as [r self1] eqn:Hloop.
  destruct (update_loop_frame n kw1 _ _ _ _ Hcard Hloop)
    as (card1 & -> & _ & _ & _ & Hu).
  destruct r as [[]|e]; [|done].
  cbn [for_each]. unfold mbind at 1, M_bind at 1, bind at 1.
  rewrite Hf. unfold mbind at 1, M_bind at 1, bind at 1, deref. simpl.
  rewrite lookup_insert_eq, (Hu field Hf Hnone). by simpl.
Qed.

End UpdateLoop.

(** ** [create_card] *)

Section Create.
Context {ucd : Unicode}.

Local Abbreviation entry_body n :=
  (fun '(field, value) =>
     match field_setters field with
     | Some setter => setter (n : Z) value
     | None =>
         card ← deref n;
         if bool_decide (is_Some (card !! field))
            && negb (bool_decide (field ∈ ["number"]))
         then setitem_card n field value
         else mret tt
     end).

Variables (name : str) (quantity : Z) (status supplier manufacturer : str)
  (cost : spec_float)
  (location article responsible arrival_date notes : str).

(** The arguments the setters are called on, in the order of the calls:
    the [try] block of [create_card] runs them as the loop of
    [update_card] would. *)
Local Abbreviation create_entries :=
  [ ("name", VStr name); ("quantity", VInt quantity);
    ("status", VStr status); ("supplier", VStr supplier);
    ("cost", VFloat cost); ("article", VStr article);
    ("arrival_date", VStr arrival_date) ].

Local Abbreviation create self :=
  (create_card name quantity status supplier manufacturer cost location
     article responsible arrival_date notes self).

Local Abbreviation stage self :=
  (staged manufacturer location responsible notes self).

Lemma bind_ret_tt (m : M unit) self : (m ;; mret tt) self = m self.
Proof.
  unfold mbind, M_bind, bind, mret, M_ret, ret.
  by destruct (m self) as [[[]|e] self'].
Qed.

Lemma create_block_loop n st :
  (_set_name n (VStr name);;
   _set_quantity n (VInt quantity);;
   _set_status n (VStr status);;
   _set_supplier n (VStr supplier);;
   _set_cost n (VFloat cost);;
   _set_article n (VStr article);;
   _set_arrival_date n (VStr arrival_date)) st
  = for_each create_entries (entry_body n) st.
Proof.
  transitivity
    ((_set_name n (VStr name);;
      _set_quantity n (VInt quantity);;
      _set_status n (VStr status);;
      _set_supplier n (VStr supplier);;
      _set_cost n (VFloat cost);;
      _set_article n (VStr article);;
      _set_arrival_date n (VStr arrival_date);; mret tt) st);
    [|reflexivity].
  unfold mbind, M_bind, bind.
  destruct (_set_name _ _ _) as [[[]|?] ?]; [|done].
  destruct (_set_quantity _ _ _) as [[[]|?] ?]; [|done].
  destruct (_set_status _ _ _) as [[[]|?] ?]; [|done].
  destruct (_set_supplier _ _ _) as [[[]|?] ?]; [|done].
  destruct (_set_cost _ _ _) as [[[]|?] ?]; [|done].
  destruct (_set_article _ _ _) as [[[]|?] ?]; [|done].
  by destruct (_set_arrival_date _ _ _) as [[[]|?] ?].
Qed.

Lemma create_card_unfold self :
  create self
  = match for_each create_entries (entry_body (_next_number self))
            (stage self) with
    | (Return _, self') =>
        (Return (_next_number self'),
         {| _cards := _cards self'; _next_number := _next_number self' + 1 |})
    | (Raise e, self') =>
        if is_ValueError e then
          match del_card (_next_number self) self' with
          | (Return _, self'') => (Raise (ValueError (CreateText e)), self'')
          | (Raise e', self'') => (Raise e', self'')
          end
        else (Raise e, self')
    end.
Proof.
  rewrite <- create_block_loop. unfold create_card.
  unfold mbind, M_bind, bind, try_except, staged, get_next_number, set_card.
  cbn [fst snd _next_number _cards].
  destruct (_set_name _ _ _) as [[[]|?] ?];
    [|destruct (is_ValueError _); [by destruct (del_card _ _) as [[[]|?] ?]|done]].
  destruct (_set_quantity _ _ _) as [[[]|?] ?];
    [|destruct (is_ValueError _); [by destruct (del_card _ _) as [[[]|?] ?]|done]].
  destruct (_set_status _ _ _) as [[[]|?] ?];
    [|destruct (is_ValueError _); [by destruct (del_card _ _) as [[[]|?] ?]|done]].
  destruct (_set_supplier _ _ _) as [[[]|?] ?];
    [|destruct (is_ValueError _); [by destruct (del_card _ _) as [[[]|?] ?]|done]].
  destruct (_set_cost _ _ _) as [[[]|?] ?];
    [|destruct (is_ValueError _); [by destruct (del_card _ _) as [[[]|?] ?]|done]].
  destruct (_set_article _ _ _) as [[[]|?] ?];
    [|destruct (is_ValueError _); [by destruct (del_card _ _) as [[[]|?] ?]|done]].
  destruct (_set_arrival_date _ _ _) as [[[]|?] ?];
    [done|destruct (is_ValueError _); [by destruct (del_card _ _) as [[[]|?] ?]|done]].
Qed.

Lemma raises_setitem_card n key v st :
  is_Some (_cards st !! n) → raises (setitem_card n key v) st = false.
Proof.
  intros [card Hcard]. unfold raises.
  by rewrite (setitem_card_Some _ _ _ _ card).
Qed.

(** What the setters of [create_card] reject, in terms of the arguments. *)
Lemma some_setter_raises_guards self :
  some_setter_raises name quantity status supplier cost article arrival_date
    (stage self)
  = (len (strip name) <? 2)
    || (quantity <? 0)
    || negb (in_STATUSES (str_lower status))
    || (len (strip supplier) <? 2)
    || SFltb cost (S754_zero false)
    || negb (truthy (VStr (strip article)))
    || negb (match match_classes date_classes arrival_date with
             | Some rest => at_dollar rest
             | None => false
             end).
Proof.
  unfold some_setter_raises.
  set (st := stage self). set (n := _next_number st).
  assert (is_Some (_cards st !! n)) as Hsome
    by (eexists; apply lookup_insert_eq).
  assert (∀ key v, raises (setitem_card n key v) st = false) as Hset
    by (intros; by apply raises_setitem_card).
  repeat f_equal.
  - unfold raises at 1, _set_name, mbind, M_bind, bind, lift, mret, M_ret, ret.
    destruct name as [|c s]; [done|]. cbn [truthy negb strip_method].
    destruct (len _ <? 2); [done|]. apply Hset.
  - unfold raises at 1, _set_quantity, mbind, M_bind, bind, lift. simpl.
    destruct (quantity <? 0); [done|]. apply Hset.
  - unfold raises at 1, _set_status, mbind, M_bind, bind, lift. simpl.
    destruct (in_STATUSES _); [apply Hset|done].
  - unfold raises at 1, _set_supplier, mbind, M_bind, bind, lift, mret, M_ret,
      ret.
    destruct supplier as [|c s]; [done|]. cbn [truthy negb strip_method].
    destruct (len _ <? 2); [done|]. apply Hset.
  - unfold raises at 1, _set_cost, mbind, M_bind, bind, lift. simpl.
    destruct (SFltb _ _); [done|]. apply Hset.
  - unfold raises at 1, _set_article, mbind, M_bind, bind, lift, mret, M_ret,
      ret.
    destruct article as [|c s]; [done|]. cbn [truthy negb strip_method].
    destruct (strip (c :: s)); [done|]. apply Hset.
  - unfold raises at 1, _set_arrival_date, mbind, M_bind, bind, lift.
    cbn [re_match_date].
    destruct (match match_classes _ _ with Some _ => _ | None => _ end);
      [apply Hset|done].
Qed.

Lemma some_setter_raises_existsb st :
  some_setter_raises name quantity status supplier cost article arrival_date
    st
  = existsb (entry_fails (_next_number st) st) create_entries.
Proof.
  unfold some_setter_raises. cbn [existsb].
  by rewrite orb_false_r, !orb_assoc.
Qed.

(** On arguments of the annotated types a setter raises [ValueError]
    only. *)
Lemma create_entries_ValueError field v setter e :
  (field, v) ∈ create_entries →
  field_setters field = Some setter →
  (∀ n self, setter n v self = (Raise e, self)) →
  is_ValueError e = true.
Proof.
  intros Hin.
  repeat (apply elem_of_cons in Hin as [[= -> ->]|Hin]);
    [..|by apply elem_of_nil in Hin]; intros [= <-] Hr.
  - destruct (_set_name_cases (VStr name)) as [(e0 & Hve & Hr0)|[_ Hs]].
    + specialize (Hr 0 init). rewrite Hr0 in Hr. injection Hr as <-. eauto.
    + destruct (setitem_card_no_raise "name" (VStr name) e).
      intros. by rewrite <- Hs.
  - destruct (_set_quantity_cases (VInt quantity)) as [(e0 & Hve & Hr0)|Hs].
    + specialize (Hr 0 init). rewrite Hr0 in Hr. injection Hr as <-. eauto.
    + destruct (setitem_card_no_raise "quantity" (VInt quantity) e).
      intros. by rewrite <- Hs.
  - destruct (_set_status_cases (VStr status))
      as [(e0 & Hve & Hr0)|(s & _ & _ & Hs)].
    + specialize (Hr 0 init). rewrite Hr0 in Hr. injection Hr as <-. eauto.
    + destruct (setitem_card_no_raise "status" (VStr (str_lower s)) e).
      intros. by rewrite <- Hs.
  - destruct (_set_supplier_cases (VStr supplier))
      as [(e0 & Hve & Hr0)|[_ Hs]].
    + specialize (Hr 0 init). rewrite Hr0 in Hr. injection Hr as <-. eauto.
    + destruct (setitem_card_no_raise "supplier" (VStr supplier) e).
      intros. by rewrite <- Hs.
  - destruct (_set_cost_cases (VFloat cost)) as [(e0 & Hve & Hr0)|Hs].
    + specialize (Hr 0 init). rewrite Hr0 in Hr. injection Hr as <-. eauto.
    + destruct (setitem_card_no_raise "cost" (VFloat cost) e).
      intros. by rewrite <- Hs.
  - destruct (_set_article_cases (VStr article))
      as [(e0 & Hve & Hr0)|(s & _ & Hs)].
    + specialize (Hr 0 init). rewrite Hr0 in Hr. injection Hr as <-. eauto.
    + destruct (setitem_card_no_raise "article" (VStr (strip s)) e).
      intros. by rewrite <- Hs.
  - destruct (_set_arrival_date_cases (VStr arrival_date))
      as [(e0 & Hve & Hr0)|Hs].
    + specialize (Hr 0 init). rewrite Hr0 in Hr. injection Hr as <-. eauto.
    + destruct (setitem_card_no_raise "arrival_date" (VStr arrival_date) e).
      intros. by rewrite <- Hs.
Qed.

Lemma placeholder_status_enumerated n :
  status_enumerated (placeholder n manufacturer location responsible notes).
Proof.
  exists (VStr (u "ожидание")). split; [done|].
  exists (u "ожидание"). split; [done|]. by vm_compute.
Qed.

(** The two outcomes of [create_card]. *)
Lemma create_card_cases self :
  let n := _next_number self in
  (some_setter_raises name quantity status supplier cost article
     arrival_date (stage self) = true
   ∧ ∃ e, create self
          = (Raise (ValueError (CreateText e)),
             {| _cards := delete n (_cards self); _next_number := n |}))
  ∨ (some_setter_raises name quantity status supplier cost article
       arrival_date (stage self) = false
     ∧ ∃ card,
         create self
         = (Return n,
            {| _cards := <[n := card]> (_cards self);
               _next_number := n + 1 |})
         ∧ status_enumerated card
         ∧ card !! "number" = Some (VInt n)
         ∧ card !! "name" = Some (VStr name)
         ∧ card !! "supplier" = Some (VStr supplier)
         ∧ card !! "article" = Some (VStr (strip article))).
Proof.
  intros n. rewrite some_setter_raises_existsb, create_card_unfold.
  change (_next_number (stage self)) with n. fold n.
  assert (_cards (stage self) !! n
          = Some (placeholder n manufacturer location responsible notes))
    as Hstage by apply lookup_insert_eq.
  destruct (existsb _ _) eqn:Hex.
  - left. split; [done|].
    destruct (update_loop_raises n _ _ (mk_is_Some _ _ Hstage) Hex _ _ Hstage)
      as (e & self' & Hloop).
    rewrite Hloop. exists e.
    destruct (update_loop_raise_origin _ _ _ _ _ _ Hstage Hloop)
      as (field & v & setter & Hin & Hf & Hr).
    rewrite (create_entries_ValueError _ _ _ _ Hin Hf Hr).
    destruct (update_loop_frame _ _ _ _ _ _ Hstage Hloop) as (card' & -> & _).
    unfold del_card. simpl. rewrite lookup_insert_eq.
    by rewrite !delete_insert_eq.
  - right. split; [done|].
    destruct (update_loop_returns n _ _ (mk_is_Some _ _ Hstage) Hex _ _ Hstage)
      as (self' & Hloop).
    rewrite Hloop.
    destruct (update_loop_frame _ _ _ _ _ _ Hstage Hloop)
      as (card' & -> & _ & Hnum & Hst & _).
    eapply update_loop_stored in Hloop as (card'' & Hc & Hstored);
      [|done|by apply (bool_decide_unpack _); vm_compute].
    simpl in Hc. rewrite lookup_insert_eq in Hc. injection Hc as <-.
    exists card'. simpl. rewrite insert_insert_eq.
    split_and!; [done|by apply Hst, placeholder_status_enumerated|done|..].
    + destruct (Hstored "name" (VStr name) _set_name) as (v' & Hs' & ->);
        [repeat constructor|done|].
      destruct (_set_name_cases (VStr name)) as [(e0 & _ & Hr0)|[_ Hs]].
      * destruct (setitem_card_no_raise "name" v' e0).
        intros. by rewrite <- Hs'.
      * f_equal. apply (setitem_card_inj "name"). intros. by rewrite <- Hs, Hs'.
    + destruct (Hstored "supplier" (VStr supplier) _set_supplier)
        as (v' & Hs' & ->); [repeat constructor|done|].
      destruct (_set_supplier_cases (VStr supplier))
        as [(e0 & _ & Hr0)|[_ Hs]].
      * destruct (setitem_card_no_raise "supplier" v' e0).
        intros. by rewrite <- Hs'.
      * f_equal. apply (setitem_card_inj "supplier").
        intros. by rewrite <- Hs, Hs'.
    + destruct (Hstored "article" (VStr article) _set_article)
        as (v' & Hs' & ->); [repeat constructor|done|].
      destruct (_set_article_cases (VStr article))
        as [(e0 & _ & Hr0)|(s & [= <-] & Hs)].
      * destruct (setitem_card_no_raise "article" v' e0).
        intros. by rewrite <- Hs'.
      * f_equal. apply (setitem_card_inj "article").
        intros. by rewrite <- Hs, Hs'.
Qed.

End Create.

(** ** [get_card] and [write_off_card] *)

Section WriteOff.
Context {ucd : Unicode}.

Lemma get_card_state n self : (get_card n self).2 = self.
Proof. unfold get_card. by destruct (_cards self !! n). Qed.

Lemma write_off_card_not_found n self :
  _cards self !! n = None →
  write_off_card n self = (Raise (ValueError (NotFoundText n)), self).
Proof.
  intros Hn. unfold write_off_card, mbind, M_bind, bind, get_card.
  by rewrite Hn.
Qed.

Lemma write_off_card_no_status n self card :
  _cards self !! n = Some card → card !! "status" = None →
  write_off_card n self = (Raise KeyError, self).
Proof.
  intros Hn Hs. unfold write_off_card, mbind, M_bind, bind, get_card, getitem.
  by rewrite Hn, Hs.
Qed.

Lemma write_off_card_refused n self card status :
  _cards self !! n = Some card → card !! "status" = Some status →
  status ≠ VStr (u "учтено") →
  write_off_card n self = (Raise (ValueError (Text write_off_text)), self).
Proof.
  intros Hn Hs Hne.
  unfold write_off_card, mbind, M_bind, bind, get_card, getitem.
  rewrite Hn, Hs. unfold mret, M_ret, ret.
  by rewrite bool_decide_eq_true_2.
Qed.

Lemma write_off_card_done n self card :
  _cards self !! n = Some card →
  card !! "status" = Some (VStr (u "учтено")) →
  write_off_card n self
  = (Return true,
     {| _cards :=
          <[n := <["quantity" := VInt 0]>
                   (<["status" := VStr (u "списано")]> card)]> (_cards self);
        _next_number := _next_number self |}).
Proof.
  intros Hn Hs.
  unfold write_off_card, get_card, getitem.
  unfold mbind at 1 2, M_bind at 1 2, bind at 1 2.
  rewrite Hn, Hs. unfold mret at 1, M_ret at 1, ret at 1.
  rewrite bool_decide_eq_false_2 by (by intros []).
  unfold mbind at 1, M_bind at 1, bind at 1.
  rewrite (setitem_card_Some _ _ _ _ card) by done.
  unfold mbind at 1, M_bind at 1, bind at 1.
  erewrite setitem_card_Some by (simpl; apply lookup_insert_eq).
  simpl. by rewrite insert_insert_eq.
Qed.

End WriteOff.

(** ** Reachable ledgers *)

Section Reachable.
Context {ucd : Unicode}.

Lemma reachable_invariant self :
  reachable self →
  numbers_below_next self
  ∧ ∀ k card, _cards self !! k = Some card → status_enumerated card.
Proof.
  induction 1 as [|c self Hreach [Hbelow Hstatus]].
  - split; intros k card; simpl; by rewrite lookup_empty.
  - destruct c as [name quantity status supplier manufacturer cost location
                     article responsible arrival_date notes|m|m|m kwargs];
      simpl.
    + destruct (create_card_cases name quantity status supplier manufacturer
                  cost location article responsible arrival_date notes self)
        as [[_ [e ->]]|[_ (card & -> & Hst & _)]]; simpl.
      * split; intros k c Hk; simpl in Hk;
          apply lookup_delete_Some in Hk as [_ Hk]; eauto.
      * split; intros k c Hk; simpl in *;
          apply lookup_insert_Some in Hk as [[<- <-]|[_ Hk]]; eauto.
        -- lia.
        -- specialize (Hbelow _ _ Hk). lia.
    + by rewrite get_card_state.
    + destruct (_cards self !! m) as [card|] eqn:Hm;
        [|by rewrite write_off_card_not_found].
      destruct (card !! "status") as [st|] eqn:Hs;
        [|by erewrite write_off_card_no_status].
      destruct (decide (st = VStr (u "учтено"))) as [->|Hne];
        [|by erewrite write_off_card_refused].
      erewrite write_off_card_done by done. simpl.
      split; intros k c Hk; simpl in *;
        apply lookup_insert_Some in Hk as [[<- <-]|[_ Hk]]; eauto.
      exists (VStr (u "списано")).
      split; [by rewrite lookup_insert_ne, lookup_insert_eq|].
      exists (u "списано"). split; [done|]. by vm_compute.
    + destruct (_cards self !! m) as [card|] eqn:Hm.
      * destruct (update_card_cases m kwargs self card Hm)
          as [(e & self' & _ & ->)|(card' & _ & -> & _ & _ & Hst)]; [done|].
        simpl.
        split; intros k c Hk; simpl in *;
          apply lookup_insert_Some in Hk as [[<- <-]|[_ Hk]]; eauto.
      * unfold update_card, mbind, M_bind, bind, get_card. by rewrite Hm.
Qed.

Lemma reachable_next_fresh self :
  reachable self → _cards self !! _next_number self = None.
Proof.
  intros [Hbelow _]%reachable_invariant.
  destruct (_cards self !! _next_number self) as [card|] eqn:Hn; [|done].
  specialize (Hbelow _ _ Hn). lia.
Qed.

End Reachable.

(** * The claims *)

Section Claims.
Context {ucd : Unicode}.

(** C1, as amended.  A [create_card] that fails does not consume the number
    it allocated: the counter is as before the call, and the next
    [create_card] that succeeds returns that very number. *)
Theorem failed_create_releases_number
    name quantity status supplier manufacturer cost location article
    responsible arrival_date notes
    name' quantity' status' supplier' manufacturer' cost' location' article'
    responsible' arrival_date' notes' self e self1 n self2 :
  create_card name quantity status supplier manufacturer cost location
    article responsible arrival_date notes self = (Raise e, self1) →
  create_card name' quantity' status' supplier' manufacturer' cost' location'
    article' responsible' arrival_date' notes' self1 = (Return n, self2) →
  _next_number self1 = _next_number self ∧ n = _next_number self.
Proof.
  intros Hfail Hok.
  destruct (create_card_cases name quantity status supplier manufacturer
              cost location article responsible arrival_date notes self)
    as [[_ [e0 Hr]]|[_ (card & Hr & _)]]; rewrite Hr in Hfail; [|done].
  injection Hfail as _ <-. simpl in *.
  destruct (create_card_cases name' quantity' status' supplier' manufacturer'
              cost' location' article' responsible' arrival_date' notes'
              {| _cards := delete (_next_number self) (_cards self);
                 _next_number := _next_number self |})
    as [[_ [e1 Hr1]]|[_ (card & Hr1 & _)]]; rewrite Hr1 in Hok; [done|].
  by injection Hok as <- _.
Qed.

(** C5.  When an entry of the payload fails its validator, [update_card]
    raises the validation error and the ledger, hence the card, is as it was
    before the call. *)
Theorem update_card_failure_restores n kwargs self card :
  _cards self !! n = Some card →
  existsb (entry_fails n self) kwargs = true →
  ∃ e, update_card n kwargs self = (Raise (ValueError (UpdateText e)), self).
Proof.
  intros Hcard Hex.
  destruct (update_loop_raises n self kwargs (mk_is_Some _ _ Hcard) Hex
              self card Hcard) as (e & self' & Hloop).
  destruct (update_card_cases n kwargs self card Hcard)
    as [(e' & self'' & _ & ->)|(card' & Hloop' & _)]; [eauto|].
  simpl in Hloop'. congruence.
Qed.

(** C6.  When a setter rejects one of the seven validated arguments,
    [create_card] on a reachable ledger raises the validation error and
    leaves the ledger as it was: no record is added. *)
Theorem create_card_failure_leaves_ledger
    name quantity status supplier manufacturer cost location article
    responsible arrival_date notes self :
  reachable self →
  some_setter_raises name quantity status supplier cost article arrival_date
    (staged manufacturer location responsible notes self) = true →
  ∃ e,
    create_card name quantity status supplier manufacturer cost location
      article responsible arrival_date notes self
    = (Raise (ValueError (CreateText e)), self).
Proof.
  intros Hreach Hbad.
  destruct (create_card_cases name quantity status supplier manufacturer
              cost location article responsible arrival_date notes self)
    as [[_ [e Hr]]|[Hgood _]]; [|congruence].
  exists e. rewrite Hr. f_equal.
  apply ProductCard_eq; simpl; [|done].
  apply delete_id. by apply reachable_next_fresh.
Qed.

(** C7.  On a stored card whose status is not ["учтено"],
    [write_off_card] raises its policy error and changes nothing; on a card
    whose status is ["учтено"] it returns [True], and the card then has the
    status ["списано"] and the quantity 0, its other fields as before. *)
Theorem write_off_card_guard n self card status :
  _cards self !! n = Some card →
  card !! "status" = Some status →
  (status ≠ VStr (u "учтено") →
   write_off_card n self = (Raise (ValueError (Text write_off_text)), self))
  ∧ (status = VStr (u "учтено") →
     write_off_card n self
     = (Return true,
        {| _cards :=
             <[n := <["quantity" := VInt 0]>
                      (<["status" := VStr (u "списано")]> card)]>
               (_cards self);
           _next_number := _next_number self |})
     ∧ field_of (write_off_card n self).2 n "status"
       = Some (VStr (u "списано"))
     ∧ field_of (write_off_card n self).2 n "quantity" = Some (VInt 0)).
Proof.
  intros Hn Hs. split.
  - intros Hne. by eapply write_off_card_refused.
  - intros ->. rewrite (write_off_card_done _ _ _ Hn Hs).
    unfold field_of. simpl. rewrite lookup_insert_eq. simpl.
    split_and!; [done| |apply lookup_insert_eq].
    by rewrite lookup_insert_ne, lookup_insert_eq.
Qed.

(** C8.  In every reachable ledger the status of every stored card is one
    of ["ожидание"], ["учтено"], ["списано"]. *)
Theorem reachable_status_enumerated self k card :
  reachable self →
  _cards self !! k = Some card →
  ∃ s, card !! "status" = Some (VStr s)
       ∧ (s = u "ожидание" ∨ s = u "учтено" ∨ s = u "списано").
Proof.
  intros [_ Hst]%reachable_invariant Hk.
  destruct (Hst _ _ Hk) as (v & Hv & s & -> & Hin).
  exists s. split; [done|].
  apply bool_decide_eq_true in Hin. simpl in Hin.
  repeat (apply elem_of_cons in Hin as [->|Hin]; [by auto|]).
  by apply elem_of_nil in Hin.
Qed.

(** C9.  Whatever the payload, the key [number] included, and whether
    [update_card] returns or raises, the card is still stored and its field
    [number] is as before the call. *)
Theorem update_card_keeps_number n kwargs self card :
  _cards self !! n = Some card →
  ∃ card',
    _cards (update_card n kwargs self).2 !! n = Some card'
    ∧ card' !! "number" = card !! "number".
Proof.
  intros Hcard.
  destruct (update_card_cases n kwargs self card Hcard)
    as [(e & self' & _ & ->)|(card' & _ & -> & _ & Hnum & _)].
  - by exists card.
  - exists card'. simpl. by rewrite lookup_insert_eq.
Qed.

(** C3, as amended.  The status of a written-off card of a reachable
    ledger is kept by [create_card], [get_card] and [write_off_card], by an
    update of another card and by an update whose payload has no entry for
    [status]. *)
Theorem written_off_status_kept c self n card :
  reachable self →
  _cards self !! n = Some card →
  card !! "status" = Some (VStr (u "списано")) →
  edits_status n c = false →
  field_of (perform c self) n "status" = Some (VStr (u "списано")).
Proof.
  intros Hreach Hn Hs Hc. unfold field_of.
  assert (_cards self !! n ≫= (.!! "status") = Some (VStr (u "списано")))
    as Hkept by (by rewrite Hn).
  destruct c as [name quantity status supplier manufacturer cost location
                   article responsible arrival_date notes|m|m|m kwargs];
    simpl.
  - pose proof (reachable_next_fresh _ Hreach) as Hfresh.
    assert (_next_number self ≠ n) as Hne by congruence.
    destruct (create_card_cases name quantity status supplier manufacturer
                cost location article responsible arrival_date notes self)
      as [[_ [e ->]]|[_ (card' & -> & _)]]; simpl.
    + by rewrite lookup_delete_ne.
    + by rewrite lookup_insert_ne.
  - by rewrite get_card_state.
  - destruct (_cards self !! m) as [cardm|] eqn:Hm;
      [|by rewrite write_off_card_not_found].
    destruct (cardm !! "status") as [st|] eqn:Hst;
      [|by erewrite write_off_card_no_status].
    destruct (decide (st = VStr (u "учтено"))) as [->|Hne];
      [|by erewrite write_off_card_refused].
    erewrite write_off_card_done by done. simpl.
    rewrite lookup_insert_ne; [done|].
    intros ->. rewrite Hn in Hm. injection Hm as <-.
    rewrite Hs in Hst. vm_compute in Hst. discriminate.
  - destruct (_cards self !! m) as [cardm|] eqn:Hm.
    + destruct (update_card_cases m kwargs self cardm Hm)
        as [(e & self' & _ & ->)|(card' & _ & -> & Hk & _)]; [done|].
      simpl. destruct (decide (m = n)) as [->|Hne].
      * rewrite lookup_insert_eq. simpl.
        rewrite Hn in Hm. injection Hm as <-.
        rewrite Hk; [done|].
        simpl in Hc. rewrite Z.eqb_refl in Hc.
        by apply bool_decide_eq_false in Hc.
      * by rewrite lookup_insert_ne.
    + unfold update_card, mbind, M_bind, bind, get_card. by rewrite Hm.
Qed.

(** C4, as amended.  An entry of the payload whose name has no registered
    setter and is not a key of the card is skipped without an error:
    [update_card] ends as it does on the payload without the entry, and on
    that entry alone it returns and leaves the ledger as it was. *)
Theorem update_card_skips_unknown n kw1 field v kw2 self card :
  _cards self !! n = Some card →
  field_setters field = None →
  card !! field = None →
  update_card n (kw1 ++ (field, v) :: kw2) self
  = update_card n (kw1 ++ kw2) self
  ∧ update_card n [(field, v)] self = (Return tt, self).
Proof.
  intros Hcard Hf Hnone. split.
  - rewrite !(update_card_unfold _ _ _ _ Hcard).
    by rewrite (update_loop_skip _ _ _ _ _ _ _ Hcard Hf Hnone).
  - rewrite (update_card_unfold _ _ _ _ Hcard).
    pose proof (update_loop_skip n [] field v [] self card Hcard Hf Hnone)
      as Hskip.
    cbn [app] in Hskip. by rewrite Hskip.
Qed.

(** C10.  After a [create_card] that returns, the card holds the [name] and
    the [supplier] as they were passed and the [article] stripped; after an
    [update_card] that returns, the same holds of the entries [name],
    [supplier] and [article] of the payload. *)
Theorem stored_strings :
  (∀ name quantity status supplier manufacturer cost location article
     responsible arrival_date notes self n self',
     create_card name quantity status supplier manufacturer cost location
       article responsible arrival_date notes self = (Return n, self') →
     field_of self' n "name" = Some (VStr name)
     ∧ field_of self' n "supplier" = Some (VStr supplier)
     ∧ field_of self' n "article" = Some (VStr (strip article)))
  ∧ (∀ n kwargs self self',
       update_card n kwargs self = (Return tt, self') →
       NoDup kwargs.*1 →
       (∀ v, ("name", v) ∈ kwargs → field_of self' n "name" = Some v)
       ∧ (∀ v, ("supplier", v) ∈ kwargs →
               field_of self' n "supplier" = Some v)
       ∧ (∀ v, ("article", v) ∈ kwargs →
               ∃ s, v = VStr s
                    ∧ field_of self' n "article" = Some (VStr (strip s)))).
Proof.
  split.
  - intros name quantity status supplier manufacturer cost location article
      responsible arrival_date notes self n self' Hcreate.
    destruct (create_card_cases name quantity status supplier manufacturer
                cost location article responsible arrival_date notes self)
      as [[_ [e Hr]]|[_ (card & Hr & _ & _ & Hname & Hsup & Hart)]];
      rewrite Hr in Hcreate; [done|].
    injection Hcreate as <- <-. unfold field_of. simpl.
    by rewrite lookup_insert_eq.
  - intros n kwargs self self' Hupdate Hnodup.
    destruct (_cards self !! n) as [card|] eqn:Hcard; cycle 1.
    { unfold update_card, mbind, M_bind, bind, get_card in Hupdate.
      by rewrite Hcard in Hupdate. }
    destruct (update_card_cases n kwargs self card Hcard)
      as [(e & ? & _ & Hr)|(card' & Hloop & Hr & _)];
      rewrite Hr in Hupdate; [done|].
    injection Hupdate as <-.
    destruct (update_loop_stored _ _ _ _ _ Hcard Hloop Hnodup)
      as (card'' & Hc & Hstored).
    unfold field_of. rewrite Hc. simpl. split_and!.
    + intros v Hin.
      destruct (Hstored "name" v _set_name Hin eq_refl) as (v' & Hs' & ->).
      destruct (_set_name_cases v) as [(e0 & _ & Hr0)|[_ Hs]].
      * destruct (setitem_card_no_raise "name" v' e0).
        intros. by rewrite <- Hs'.
      * f_equal. apply (setitem_card_inj "name"). intros. by rewrite <- Hs, Hs'.
    + intros v Hin.
      destruct (Hstored "supplier" v _set_supplier Hin eq_refl)
        as (v' & Hs' & ->).
      destruct (_set_supplier_cases v) as [(e0 & _ & Hr0)|[_ Hs]].
      * destruct (setitem_card_no_raise "supplier" v' e0).
        intros. by rewrite <- Hs'.
      * f_equal. apply (setitem_card_inj "supplier").
        intros. by rewrite <- Hs, Hs'.
    + intros v Hin.
      destruct (Hstored "article" v _set_article Hin eq_refl)
        as (v' & Hs' & ->).
      destruct (_set_article_cases v) as [(e0 & _ & Hr0)|(s & -> & Hs)].
      * destruct (setitem_card_no_raise "article" v' e0).
        intros. by rewrite <- Hs'.
      * exists s. split; [done|]. f_equal.
        apply (setitem_card_inj "article"). intros. by rewrite <- Hs, Hs'.
Qed.

End Claims.

(** C2.  The class binds no attribute [list_cards], the name the listing
    branch of [console] calls: on every ledger the branch raises
    [AttributeError], and no sequence of cards is returned. *)
Theorem console_choice_5_raises self :
  console_choice_5 self = (Raise AttributeError, self).
Proof.
  unfold console_choice_5, getattr. by vm_compute.
Qed.

(** * The claims on the ledger of the card "Bolt M6" *)

(** C1 as stated fails: after a [create_card] that fails on the fresh
    ledger, where it allocated the number 1, the next [create_card] returns
    1, which is not larger. *)
Lemma failed_create_number_reused :
  ∃ e self1 self2,
    create_card [] 100 (u "ожидание") (u "AcmeCo") (u "AcmeMfg") cost_half
      (u "Shelf A") (u "ART-1") (u "J.Doe") (u "01.01.2024") [] init
    = (Raise e, self1)
    ∧ create_card (u "Bolt M6") 100 (u "ожидание") (u "AcmeCo") (u "AcmeMfg")
        cost_half (u "Shelf A") (u "ART-1") (u "J.Doe") (u "01.01.2024") [] self1
      = (Return 1, self2)
    ∧ ¬ (_next_number init < 1).
Proof.
  do 3 eexists. split_and!.
  - vm_compute. reflexivity.
  - vm_compute. reflexivity.
  - vm_compute. discriminate.
Qed.

Lemma failed_create_releases_number_witness :
  _next_number (perform create_nameless init) = _next_number init
  ∧ 1 = _next_number init.
Proof.
  eapply (failed_create_releases_number
            [] 100 (u "ожидание") (u "AcmeCo") (u "AcmeMfg") cost_half
            (u "Shelf A") (u "ART-1") (u "J.Doe") (u "01.01.2024") []
            (u "Bolt M6") 100 (u "ожидание") (u "AcmeCo") (u "AcmeMfg") cost_half
            (u "Shelf A") (u "ART-1") (u "J.Doe") (u "01.01.2024") []
            init).
  - vm_compute. reflexivity.
  - vm_compute. reflexivity.
Defined.

(** C3 as stated fails: the card 1 of a reachable ledger is written off,
    and [update_card(1, status="ожидание")] returns and makes it pending. *)
Lemma written_off_status_edited :
  reachable ledger_written_off
  ∧ field_of ledger_written_off 1 "status" = Some (VStr (u "списано"))
  ∧ (update_card 1 [("status", VStr (u "ожидание"))] ledger_written_off).1
    = Return tt
  ∧ field_of
      (perform (UpdateCard 1 [("status", VStr (u "ожидание"))])
         ledger_written_off) 1 "status"
    = Some (VStr (u "ожидание")).
Proof.
  split_and!.
  - repeat apply reachable_call. apply reachable_init.
  - vm_compute. reflexivity.
  - vm_compute. reflexivity.
  - vm_compute. reflexivity.
Qed.

Lemma written_off_status_kept_witness :
  edits_status 1 (UpdateCard 1 [("quantity", VInt 3)]) = false
  ∧ field_of (perform (UpdateCard 1 [("quantity", VInt 3)])
                ledger_written_off) 1 "status"
    = Some (VStr (u "списано")).
Proof.
  split; [reflexivity|].
  eapply (written_off_status_kept (UpdateCard 1 [("quantity", VInt 3)])
            ledger_written_off 1).
  - repeat apply reachable_call. apply reachable_init.
  - vm_compute. reflexivity.
  - vm_compute. reflexivity.
  - reflexivity.
Defined.

(** C4 as stated fails: [update_card(1, colour="red")], whose field has no
    setter and is no key of the card, returns without an error and leaves
    the ledger as it was. *)
Lemma unknown_field_not_rejected :
  field_of ledger_pending 1 "colour" = None
  ∧ update_card 1 [("colour", VStr (u "red"))] ledger_pending
    = (Return tt, ledger_pending).
Proof.
  split.
  - vm_compute. reflexivity.
  - vm_compute. reflexivity.
Qed.

Lemma update_card_skips_unknown_witness :
  update_card 1 [("notes", VStr (u "new")); ("colour", VStr (u "red"));
                 ("quantity", VInt 7)] ledger_pending
  = update_card 1 [("notes", VStr (u "new")); ("quantity", VInt 7)]
      ledger_pending
  ∧ update_card 1 [("colour", VStr (u "red"))] ledger_pending
    = (Return tt, ledger_pending).
Proof.
  eapply (update_card_skips_unknown 1 [("notes", VStr (u "new"))] "colour"
            (VStr (u "red")) [("quantity", VInt 7)] ledger_pending).
  - vm_compute. reflexivity.
  - reflexivity.
  - vm_compute. reflexivity.
Defined.

Lemma update_card_failure_restores_witness :
  existsb (entry_fails 1 ledger_pending)
    [("location", VStr (u "Shelf B")); ("quantity", VInt (-5))] = true
  ∧ ∃ e,
      update_card 1 [("location", VStr (u "Shelf B")); ("quantity", VInt (-5))]
        ledger_pending
      = (Raise (ValueError (UpdateText e)), ledger_pending).
Proof.
  split; [vm_compute; reflexivity|].
  eapply (update_card_failure_restores 1
            [("location", VStr (u "Shelf B")); ("quantity", VInt (-5))]
            ledger_pending).
  - vm_compute. reflexivity.
  - vm_compute. reflexivity.
Defined.

Lemma create_card_failure_leaves_ledger_witness :
  some_setter_raises (u "Bolt M8") 5 (u "ожидание") (u "AcmeCo") cost_half
    (u "ART-2") (u "2024-01-01") (staged [] [] [] [] ledger_pending) = true
  ∧ ∃ e,
      create_card (u "Bolt M8") 5 (u "ожидание") (u "AcmeCo") [] cost_half []
        (u "ART-2") [] (u "2024-01-01") [] ledger_pending
      = (Raise (ValueError (CreateText e)), ledger_pending).
Proof.
  split; [vm_compute; reflexivity|].
  apply create_card_failure_leaves_ledger.
  - repeat apply reachable_call. apply reachable_init.
  - vm_compute. reflexivity.
Defined.

Lemma write_off_card_guard_witness :
  field_of ledger_pending 1 "status" = Some (VStr (u "ожидание"))
  ∧ write_off_card 1 ledger_pending
    = (Raise (ValueError (Text write_off_text)), ledger_pending)
  ∧ field_of ledger_registered 1 "status" = Some (VStr (u "учтено"))
  ∧ field_of (write_off_card 1 ledger_registered).2 1 "status"
    = Some (VStr (u "списано"))
  ∧ field_of (write_off_card 1 ledger_registered).2 1 "quantity"
    = Some (VInt 0).
Proof.
  split; [vm_compute; reflexivity|]. split.
  { eapply (write_off_card_guard 1 ledger_pending).
    - vm_compute. reflexivity.
    - vm_compute. reflexivity.
    - vm_compute. discriminate. }
  split; [vm_compute; reflexivity|].
  eapply (write_off_card_guard 1 ledger_registered).
  - vm_compute. reflexivity.
  - vm_compute. reflexivity.
  - vm_compute. reflexivity.
Defined.

Lemma reachable_status_enumerated_witness :
  _cards ledger_written_off !! 1 = Some (card_of ledger_written_off 1)
  ∧ ∃ s, card_of ledger_written_off 1 !! "status" = Some (VStr s)
         ∧ (s = u "ожидание" ∨ s = u "учтено" ∨ s = u "списано").
Proof.
  split; [vm_compute; reflexivity|].
  apply (reachable_status_enumerated ledger_written_off 1).
  - repeat apply reachable_call. apply reachable_init.
  - vm_compute. reflexivity.
Defined.

Lemma update_card_keeps_number_witness :
  _cards ledger_pending !! 1 = Some (card_of ledger_pending 1)
  ∧ ∃ card',
      _cards (update_card 1 [("number", VInt 7); ("notes", VStr (u "n"))]
                ledger_pending).2 !! 1 = Some card'
      ∧ card' !! "number" = card_of ledger_pending 1 !! "number".
Proof.
  split; [vm_compute; reflexivity|].
  apply (update_card_keeps_number 1
           [("number", VInt 7); ("notes", VStr (u "n"))] ledger_pending).
  vm_compute. reflexivity.
Defined.

Lemma stored_strings_witness :
  field_of
    (perform (CreateCard (u " ab ") 1 (u "ожидание") (u " AcmeCo ") []
                cost_half [] (u " ab ") [] (u "01.01.2024") []) init)
    1 "name" = Some (VStr (u " ab "))
  ∧ field_of
      (perform (CreateCard (u " ab ") 1 (u "ожидание") (u " AcmeCo ") []
                  cost_half [] (u " ab ") [] (u "01.01.2024") []) init)
      1 "article" = Some (VStr (u "ab"))
  ∧ field_of
      (perform (UpdateCard 1 [("name", VStr (u " cd "))]) ledger_pending)
      1 "name" = Some (VStr (u " cd ")).
Proof.
  destruct stored_strings as [Hcreate Hupdate].
  destruct (Hcreate (u " ab ") 1 (u "ожидание") (u " AcmeCo ") [] cost_half []
              (u " ab ") [] (u "01.01.2024") [] init 1
              (perform (CreateCard (u " ab ") 1 (u "ожидание") (u " AcmeCo ")
                          [] cost_half [] (u " ab ") [] (u "01.01.2024") [])
                 init))
    as (Hname & _ & Hart); [vm_compute; reflexivity|].
  split; [exact Hname|]. split; [exact Hart|].
  destruct (Hupdate 1 [("name", VStr (u " cd "))] ledger_pending
              (perform (UpdateCard 1 [("name", VStr (u " cd "))])
                 ledger_pending)) as (Hname' & _).
  - vm_compute. reflexivity.
  - apply NoDup_singleton.
  - apply Hname'. apply list_elem_of_here.
Defined.

(** * Further properties of the class *)

(** ** The setters on arguments of the annotated types *)

Section TypedSetters.
Context {ucd : Unicode}.

Ltac setter_eval :=
  unfold mbind, M_bind, bind, mret, M_ret, ret, lift, raise; simpl.

Lemma _set_name_str n s self :
  _set_name n (VStr s) self
  = if len (strip s) <? 2
    then (Raise (ValueError (Text name_text)), self)
    else setitem_card n "name" (VStr s) self.
Proof.
  unfold _set_name. destruct s as [|c s]; [done|]. setter_eval.
  by destruct (len _ <? 2).
Qed.

Lemma _set_supplier_str n s self :
  _set_supplier n (VStr s) self
  = if len (strip s) <? 2
    then (Raise (ValueError (Text supplier_text)), self)
    else setitem_card n "supplier" (VStr s) self.
Proof.
  unfold _set_supplier. destruct s as [|c s]; [done|]. setter_eval.
  by destruct (len _ <? 2).
Qed.

Lemma _set_quantity_int n z self :
  _set_quantity n (VInt z) self
  = if z <? 0
    then (Raise (ValueError (Text quantity_text)), self)
    else setitem_card n "quantity" (VInt z) self.
Proof. unfold _set_quantity. setter_eval. by destruct (z <? 0). Qed.

Lemma _set_cost_float n f self :
  _set_cost n (VFloat f) self
  = if SFltb f (S754_zero false)
    then (Raise (ValueError (Text cost_text)), self)
    else setitem_card n "cost" (VFloat f) self.
Proof. unfold _set_cost. setter_eval. by destruct (SFltb _ _). Qed.

Lemma _set_status_str n s self :
  _set_status n (VStr s) self
  = if negb (in_STATUSES (str_lower s))
    then (Raise (ValueError (Text status_text)), self)
    else setitem_card n "status" (VStr (str_lower s)) self.
Proof. unfold _set_status. setter_eval. by destruct (in_STATUSES _). Qed.

Lemma _set_article_str n s self :
  _set_article n (VStr s) self
  = if negb (truthy (VStr (strip s)))
    then (Raise (ValueError (Text article_text)), self)
    else setitem_card n "article" (VStr (strip s)) self.
Proof.
  unfold _set_article. destruct s as [|c s]; [done|]. setter_eval.
  by destruct (strip (c :: s)).
Qed.

Lemma _set_arrival_date_str n s self :
  _set_arrival_date n (VStr s) self
  = if negb (date_accepted s)
    then (Raise (ValueError (Text arrival_date_text)), self)
    else setitem_card n "arrival_date" (VStr s) self.
Proof.
  unfold _set_arrival_date, date_accepted, mbind, M_bind, bind, lift.
  cbn [re_match_date].
  by destruct (match match_classes _ _ with Some _ => _ | None => _ end).
Qed.

End TypedSetters.

(** ** [create_card], evaluated *)

Section CreateEval.
Context {ucd : Unicode}.
Variables (name : str) (quantity : Z) (status supplier manufacturer : str)
  (cost : spec_float)
  (location article responsible arrival_date notes : str).

Ltac create_fails :=
  cbn [is_ValueError]; unfold del_card; cbn [_cards _next_number];
  rewrite lookup_insert_eq, delete_insert_eq; reflexivity.

Ltac setter_stores :=
  erewrite setitem_card_Some by (cbn [_cards]; apply lookup_insert_eq);
  cbn [_cards _next_number]; rewrite insert_insert_eq.

Lemma create_card_eval self :
  create_card name quantity status supplier manufacturer cost location
    article responsible arrival_date notes self
  = let n := _next_number self in
    let failed t :=
      (Raise (ValueError (CreateText (ValueError (Text t)))),
       {| _cards := delete n (_cards self); _next_number := n |}) in
    if len (strip name) <? 2 then failed name_text
    else if quantity <? 0 then failed quantity_text
    else if negb (in_STATUSES (str_lower status)) then failed status_text
    else if len (strip supplier) <? 2 then failed supplier_text
    else if SFltb cost (S754_zero false) then failed cost_text
    else if negb (truthy (VStr (strip article))) then failed article_text
    else if negb (date_accepted arrival_date) then failed arrival_date_text
    else
      (Return n,
       {| _cards :=
            <[n := created_card n name quantity status supplier manufacturer
                     cost location article responsible arrival_date notes]>
              (_cards self);
          _next_number := n + 1 |}).
Proof.
  rewrite create_card_unfold, <- create_block_loop.
  unfold staged, set_card. cbn [snd]. cbv zeta.
  set (n := _next_number self).
  unfold mbind, M_bind, bind.
  rewrite _set_name_str.
  destruct (len (strip name) <? 2); [create_fails|setter_stores].
  rewrite _set_quantity_int.
  destruct (quantity <? 0); [create_fails|setter_stores].
  rewrite _set_status_str.
  destruct (negb (in_STATUSES (str_lower status)));
    [create_fails|setter_stores].
  rewrite _set_supplier_str.
  destruct (len (strip supplier) <? 2); [create_fails|setter_stores].
  rewrite _set_cost_float.
  destruct (SFltb cost (S754_zero false)); [create_fails|setter_stores].
  rewrite _set_article_str.
  destruct (negb (truthy (VStr (strip article))));
    [create_fails|setter_stores].
  rewrite _set_arrival_date_str.
  destruct (negb (date_accepted arrival_date));
    [create_fails|setter_stores].
  reflexivity.
Qed.

End CreateEval.

(** ** What the setters store *)

Section Stores.
Context {ucd : Unicode}.

(** A setter that stores [v'] for the argument [v] has found [v] valid. *)
Ltac on_stored_card H :=
  specialize (H 0 {| _cards := {[0 := ∅]}; _next_number := 0 |});
  rewrite !(setitem_card_Some _ _ _ _ ∅) in H by done.

Lemma _set_name_stores v v' :
  (∀ n self, _set_name n v self = setitem_card n "name" v' self) →
  ∃ s, v' = VStr s ∧ (len (strip s) <? 2) = false.
Proof.
  intros H. destruct (_set_name_cases v) as [(e & _ & Hr)|[[s ->] Hs]].
  - destruct (setitem_card_no_raise "name" v' e). intros. by rewrite <- H.
  - assert (v' = VStr s) as ->
      by (apply (setitem_card_inj "name"); intros; by rewrite <- H, Hs).
    exists s. split; [done|].
    on_stored_card H. rewrite _set_name_str in H.
    by destruct (len _ <? 2).
Qed.

Lemma _set_supplier_stores v v' :
  (∀ n self, _set_supplier n v self = setitem_card n "supplier" v' self) →
  ∃ s, v' = VStr s ∧ (len (strip s) <? 2) = false.
Proof.
  intros H. destruct (_set_supplier_cases v) as [(e & _ & Hr)|[[s ->] Hs]].
  - destruct (setitem_card_no_raise "supplier" v' e). intros. by rewrite <- H.
  - assert (v' = VStr s) as ->
      by (apply (setitem_card_inj "supplier"); intros; by rewrite <- H, Hs).
    exists s. split; [done|].
    on_stored_card H. rewrite _set_supplier_str in H.
    by destruct (len _ <? 2).
Qed.

Lemma _set_quantity_stores v v' :
  (∀ n self, _set_quantity n v self = setitem_card n "quantity" v' self) →
  v' = v ∧ lt0 v = Return false.
Proof.
  intros H. destruct (_set_quantity_cases v) as [(e & _ & Hr)|Hs].
  - destruct (setitem_card_no_raise "quantity" v' e). intros. by rewrite <- H.
  - assert (v' = v) as ->
      by (apply (setitem_card_inj "quantity"); intros; by rewrite <- H, Hs).
    split; [done|]. on_stored_card H.
    unfold _set_quantity, mbind, M_bind, bind, lift in H.
    destruct (lt0 v) as [[]|]; try done.
Qed.

Lemma _set_cost_stores v v' :
  (∀ n self, _set_cost n v self = setitem_card n "cost" v' self) →
  v' = v ∧ lt0 v = Return false.
Proof.
  intros H. destruct (_set_cost_cases v) as [(e & _ & Hr)|Hs].
  - destruct (setitem_card_no_raise "cost" v' e). intros. by rewrite <- H.
  - assert (v' = v) as ->
      by (apply (setitem_card_inj "cost"); intros; by rewrite <- H, Hs).
    split; [done|]. on_stored_card H.
    unfold _set_cost, mbind, M_bind, bind, lift in H.
    destruct (lt0 v) as [[]|]; try done.
Qed.

Lemma _set_status_stores v v' :
  (∀ n self, _set_status n v self = setitem_card n "status" v' self) →
  ∃ s, v = VStr s ∧ v' = VStr (str_lower s)
       ∧ in_STATUSES (str_lower s) = true.
Proof.
  intros H.
  destruct (_set_status_cases v) as [(e & _ & Hr)|(s & -> & Hin & Hs)].
  - destruct (setitem_card_no_raise "status" v' e). intros. by rewrite <- H.
  - exists s. split_and!; [done| |done].
    apply (setitem_card_inj "status"). intros. by rewrite <- H, Hs.
Qed.

Lemma _set_article_stores v v' :
  (∀ n self, _set_article n v self = setitem_card n "article" v' self) →
  ∃ s, v = VStr s ∧ v' = VStr (strip s)
       ∧ truthy (VStr (strip s)) = true.
Proof.
  intros H.
  destruct (_set_article_cases v) as [(e & _ & Hr)|(s & -> & Hs)].
  - destruct (setitem_card_no_raise "article" v' e). intros. by rewrite <- H.
  - exists s. split_and!; [done|..].
    + apply (setitem_card_inj "article"). intros. by rewrite <- H, Hs.
    + on_stored_card Hs. rewrite _set_article_str in Hs.
      by destruct (truthy (VStr (strip s))).
Qed.

Lemma _set_arrival_date_stores v v' :
  (∀ n self,
     _set_arrival_date n v self = setitem_card n "arrival_date" v' self) →
  ∃ s, v' = VStr s ∧ v = VStr s ∧ date_accepted s = true.
Proof.
  intros H.
  destruct (_set_arrival_date_cases v) as [(e & _ & Hr)|Hs].
  - destruct (setitem_card_no_raise "arrival_date" v' e).
    intros. by rewrite <- H.
  - assert (v' = v) as ->
      by (apply (setitem_card_inj "arrival_date"); intros;
          by rewrite <- H, Hs).
    destruct v as [|z|f|s]; on_stored_card H;
      try (by unfold _set_arrival_date, mbind, M_bind, bind, lift in H).
    exists s. split_and!; [done..|].
    rewrite _set_arrival_date_str in H.
    by destruct (date_accepted s).
Qed.

End Stores.

(** ** Cards of reachable ledgers *)

Section Validated.
Context {ucd : Unicode}.

Local Abbreviation entry_body n :=
  (fun '(field, value) =>
     match field_setters field with
     | Some setter => setter (n : Z) value
     | None =>
         card ← deref n;
         if bool_decide (is_Some (card !! field))
            && negb (bool_decide (field ∈ ["number"]))
         then setitem_card n field value
         else mret tt
     end).

(** A property of cards that every write of an entry keeps is kept by the
    loop of [update_card]. *)
Lemma update_loop_preserves (P : dict → Prop) n kwargs :
  (∀ card field v v',
     P card → field ≠ "number" →
     (∀ setter, field_setters field = Some setter →
        ∀ n' self', setter n' v self' = setitem_card n' field v' self') →
     (field_setters field = None → is_Some (card !! field)) →
     P (<[field := v']> card)) →
  ∀ self card r self',
    _cards self !! n = Some card →
    for_each kwargs (entry_body n) self = (r, self') →
    P card →
    ∃ card',
      self' = {| _cards := <[n := card']> (_cards self);
                 _next_number := _next_number self |}
      ∧ P card'.
Proof.
  intros Hwrite.
  induction kwargs as [|[field v] kwargs IH]; intros self card r self' Hcard.
  - intros Hloop HP. injection Hloop as <- <-. exists card. split; [|done].
    apply ProductCard_eq; simpl; [|done]. by rewrite insert_id.
  - cbn [for_each]. unfold mbind at 1, M_bind at 1, bind at 1.
    destruct (entry_body_cases n field v self card Hcard)
      as [(e & ? & Hr1 & _)|[[Hr1 _]|(v' & Hr1 & Hnum & _ & Hin & Hs)]];
      rewrite Hr1; intros Hloop HP.
    + injection Hloop as <- <-. exists card. split; [|done].
      apply ProductCard_eq; simpl; [|done]. by rewrite insert_id.
    + by eapply IH.
    + eapply IH in Hloop as (card' & -> & HP');
        [|simpl; apply lookup_insert_eq|by eapply Hwrite].
      exists card'. split; [|done]. simpl. by rewrite insert_insert_eq.
Qed.

Ltac field_case f key :=
  destruct (decide (f = key)) as [->|?];
  [rewrite lookup_insert_eq|rewrite lookup_insert_ne by done].

(** Writing a valid value keeps a card validated. *)
Lemma validated_insert k card f v' :
  validated k card →
  f ≠ "number" →
  (f = "name" → ∃ s, v' = VStr s ∧ (len (strip s) <? 2) = false) →
  (f = "quantity" → lt0 v' = Return false) →
  (f = "status" → status_value v') →
  (f = "supplier" → ∃ s, v' = VStr s ∧ (len (strip s) <? 2) = false) →
  (f = "cost" → lt0 v' = Return false) →
  (f = "arrival_date" → ∃ s, v' = VStr s ∧ date_accepted s = true) →
  (f = "article" →
   ∃ s, v' = VStr (strip s) ∧ truthy (VStr (strip s)) = true) →
  validated k (<[f := v']> card).
Proof.
  intros [Hnum Hname Hqty Hst Hsup Hcost Hdate Hart]
    Hf Hfname Hfqty Hfst Hfsup Hfcost Hfdate Hfart.
  constructor.
  - by rewrite lookup_insert_ne.
  - field_case f "name"; [|done].
    destruct (Hfname eq_refl) as (s & -> & ?). eauto.
  - field_case f "quantity"; [|done]. eauto.
  - unfold status_enumerated. field_case f "status"; [|done]. eauto.
  - field_case f "supplier"; [|done].
    destruct (Hfsup eq_refl) as (s & -> & ?). eauto.
  - field_case f "cost"; [|done]. eauto.
  - field_case f "arrival_date"; [|done].
    destruct (Hfdate eq_refl) as (s & -> & ?). eauto.
  - field_case f "article"; [|done].
    destruct (Hfart eq_refl) as (s & -> & ?). eauto.
Qed.

(** The write of an entry keeps a card validated, and its keys. *)
Lemma entry_write_validated k card field v v' :
  validated k card ∧ has_card_keys card →
  field ≠ "number" →
  (∀ setter, field_setters field = Some setter →
     ∀ n' self', setter n' v self' = setitem_card n' field v' self') →
  (field_setters field = None → is_Some (card !! field)) →
  validated k (<[field := v']> card) ∧ has_card_keys (<[field := v']> card).
Proof.
  intros [Hval Hkeys] Hnum Hs Hin. split.
  - apply validated_insert; [done..| | | | | | |]; intros ->.
    + by apply (_set_name_stores v), Hs.
    + by destruct (_set_quantity_stores v v') as [-> ?]; [apply Hs|].
    + destruct (_set_status_stores v v') as (s & _ & -> & ?);
        [by apply Hs|]. by exists (str_lower s).
    + by apply (_set_supplier_stores v), Hs.
    + by destruct (_set_cost_stores v v') as [-> ?]; [apply Hs|].
    + destruct (_set_arrival_date_stores v v') as (s & -> & _ & ?);
        [by apply Hs|]. eauto.
    + destruct (_set_article_stores v v') as (s & _ & -> & ?);
        [by apply Hs|]. eauto.
  - unfold has_card_keys in *. rewrite dom_insert_L, Hkeys.
    apply subseteq_union_1_L, singleton_subseteq_l.
    destruct (field_setters field) as [setter|] eqn:Hf.
    + apply field_setters_Some in Hf.
      apply elem_of_list_to_set. unfold card_keys.
      repeat (apply elem_of_cons in Hf as [->|Hf];
              [by apply (bool_decide_unpack _); vm_compute|]).
      by apply elem_of_nil in Hf.
    + rewrite <- Hkeys. by apply elem_of_dom, Hin.
Qed.

End Validated.

Section ReachableCards.
Context {ucd : Unicode}.

Lemma ProductCard_eta self :
  {| _cards := _cards self; _next_number := _next_number self |} = self.
Proof. by destruct self. Qed.

(** [update_card] leaves the ledger as it was or replaces the card by one
    that has every property that the writes of entries keep. *)
Lemma perform_update_cases (P : dict → Prop) n kwargs self card :
  (∀ card field v v',
     P card → field ≠ "number" →
     (∀ setter, field_setters field = Some setter →
        ∀ n' self', setter n' v self' = setitem_card n' field v' self') →
     (field_setters field = None → is_Some (card !! field)) →
     P (<[field := v']> card)) →
  _cards self !! n = Some card →
  P card →
  perform (UpdateCard n kwargs) self = self
  ∨ ∃ card',
      P card'
      ∧ perform (UpdateCard n kwargs) self
        = {| _cards := <[n := card']> (_cards self);
             _next_number := _next_number self |}.
Proof.
  intros Hwrite Hcard HP. cbn [perform].
  rewrite (update_card_unfold _ _ _ _ Hcard).
  destruct (for_each kwargs _ self) as [r self'] eqn:Hloop.
  destruct (update_loop_preserves P n kwargs Hwrite _ _ _ _ Hcard Hloop HP)
    as (card' & -> & HP').
  destruct r as [[]|e]; simpl.
  - right. by exists card'.
  - left. rewrite insert_insert_eq, insert_id by done. apply ProductCard_eta.
Qed.

Lemma perform_update_not_found n kwargs self :
  _cards self !! n = None → perform (UpdateCard n kwargs) self = self.
Proof.
  intros Hn. cbn [perform].
  unfold update_card, mbind, M_bind, bind, get_card. by rewrite Hn.
Qed.

(** [write_off_card] leaves the ledger as it was or writes the status and
    the quantity of a stored card. *)
Lemma perform_write_off_cases n self :
  perform (WriteOffCard n) self = self
  ∨ ∃ card,
      _cards self !! n = Some card
      ∧ perform (WriteOffCard n) self
        = {| _cards :=
               <[n := <["quantity" := VInt 0]>
                        (<["status" := VStr (u "списано")]> card)]>
                 (_cards self);
             _next_number := _next_number self |}.
Proof.
  cbn [perform].
  destruct (_cards self !! n) as [card|] eqn:Hn;
    [|left; by rewrite write_off_card_not_found].
  destruct (card !! "status") as [st|] eqn:Hs;
    [|left; by erewrite write_off_card_no_status].
  destruct (decide (st = VStr (u "учтено"))) as [->|Hne];
    [|left; by erewrite write_off_card_refused].
  right. exists card. by erewrite write_off_card_done.
Qed.

(** [create_card] on a ledger whose counter is not a stored number leaves
    the ledger as it was or stores the card of its arguments under the
    counter and advances the counter. *)
Lemma perform_create_cases name quantity status supplier manufacturer cost
    location article responsible arrival_date notes self :
  _cards self !! _next_number self = None →
  let c := CreateCard name quantity status supplier manufacturer cost
             location article responsible arrival_date notes in
  perform c self = self
  ∨ (some_setter_raises name quantity status supplier cost article
       arrival_date (staged manufacturer location responsible notes self)
     = false
     ∧ perform c self
       = {| _cards :=
              <[_next_number self :=
                  created_card (_next_number self) name quantity status
                    supplier manufacturer cost location article responsible
                    arrival_date notes]> (_cards self);
            _next_number := _next_number self + 1 |}).
Proof.
  intros Hfresh c. unfold c. cbn [perform].
  rewrite some_setter_raises_guards, create_card_eval. cbv zeta.
  rewrite (delete_id _ _ Hfresh), ProductCard_eta.
  unfold date_accepted.
  repeat (match goal with
          | |- context [if ?b then _ else _] => destruct b
          end; [by left|]); simpl.
  by right.
Qed.

Lemma created_card_validated n name quantity status supplier manufacturer
    cost location article responsible arrival_date notes self :
  some_setter_raises name quantity status supplier cost article arrival_date
    (staged manufacturer location responsible notes self) = false →
  validated n (created_card n name quantity status supplier manufacturer
                 cost location article responsible arrival_date notes).
Proof.
  rewrite some_setter_raises_guards.
  intros Hg. repeat apply orb_false_elim in Hg as [Hg ?].
  repeat match goal with
         | H : negb _ = false |- _ => apply negb_false_iff in H
         end.
  constructor.
  - done.
  - by exists name.
  - exists (VInt quantity). split; [done|]. simpl. by f_equal.
  - exists (VStr (str_lower status)). split; [done|]. by eexists.
  - by exists supplier.
  - exists (VFloat cost). split; [done|]. simpl. by f_equal.
  - by exists arrival_date.
  - by exists article.
Qed.

Lemma created_card_keys n name quantity status supplier manufacturer cost
    location article responsible arrival_date notes :
  has_card_keys (created_card n name quantity status supplier manufacturer
                   cost location article responsible arrival_date notes).
Proof. unfold has_card_keys. by vm_compute. Qed.

(** The cards of a reachable ledger: the stored numbers are those from 1
    to below the counter, and every card is validated and has the keys of
    the dictionary of [create_card]. *)
Lemma reachable_cards self :
  reachable self →
  1 ≤ _next_number self
  ∧ (∀ k, is_Some (_cards self !! k) ↔ 1 ≤ k < _next_number self)
  ∧ ∀ k card, _cards self !! k = Some card →
              validated k card ∧ has_card_keys card.
Proof.
  induction 1 as [|c self Hreach (Hpos & Hdom & Hcards)].
  - split_and!.
    + done.
    + intros k. simpl. rewrite lookup_empty. split; [by intros [? ?]|lia].
    + intros k card. simpl. by rewrite lookup_empty.
  - destruct c as [name quantity status supplier manufacturer cost location
                     article responsible arrival_date notes|m|m|m kwargs].
    + destruct (perform_create_cases name quantity status supplier
                  manufacturer cost location article responsible arrival_date
                  notes self (reachable_next_fresh _ Hreach))
        as [->|[Hg ->]]; [done|]. simpl. split_and!.
      * lia.
      * intros k. rewrite lookup_insert_is_Some, Hdom. lia.
      * intros k card [[<- <-]|[_ Hk]]%lookup_insert_Some; [|eauto].
        split; [by eapply created_card_validated|apply created_card_keys].
    + cbn [perform]. by rewrite get_card_state.
    + destruct (perform_write_off_cases m self) as [->|(card & Hm & ->)];
        [done|]. simpl. split_and!.
      * done.
      * intros k. rewrite lookup_insert_is_Some, <- Hdom.
        split; [intros [<-|[_ ?]]; eauto|]. intros Hk.
        destruct (decide (m = k)); auto.
      * intros k card' [[<- <-]|[_ Hk]]%lookup_insert_Some; [|eauto].
        destruct (Hcards _ _ Hm) as [Hval Hkeys]. split.
        -- apply validated_insert; try done.
           apply validated_insert; try done.
           intros _. exists (u "списано"). split; [done|]. by vm_compute.
        -- unfold has_card_keys in *. rewrite !dom_insert_L, Hkeys.
           by vm_compute.
    + destruct (_cards self !! m) as [card|] eqn:Hm;
        [|by rewrite perform_update_not_found].
      destruct (perform_update_cases
                  (λ card, validated m card ∧ has_card_keys card)
                  m kwargs self card)
        as [->|(card' & HP & ->)]; [|done|eauto|done|].
      { intros. by eapply entry_write_validated. }
      simpl. split_and!.
      * done.
      * intros k. rewrite lookup_insert_is_Some, <- Hdom.
        split; [intros [<-|[_ ?]]; eauto|]. intros Hk.
        destruct (decide (m = k)); auto.
      * intros k card'' [[<- <-]|[_ Hk]]%lookup_insert_Some; eauto.
Qed.

End ReachableCards.

(** ** Counter and calls *)

Section Counter.
Context {ucd : Unicode}.

Lemma create_card_returns name quantity status supplier manufacturer cost
    location article responsible arrival_date notes self n self' :
  create_card name quantity status supplier manufacturer cost location
    article responsible arrival_date notes self = (Return n, self') →
  n = _next_number self ∧ _next_number self' = n + 1.
Proof.
  intros Hcreate.
  destruct (create_card_cases name quantity status supplier manufacturer
              cost location article responsible arrival_date notes self)
    as [[_ [e Hr]]|[_ (card & Hr & _)]]; rewrite Hr in Hcreate; [done|].
  by injection Hcreate as <- <-.
Qed.

(** No call lowers the counter. *)
Lemma perform_next_number c self :
  _next_number self ≤ _next_number (perform c self).
Proof.
  destruct c as [name quantity status supplier manufacturer cost location
                   article responsible arrival_date notes|m|m|m kwargs].
  - cbn [perform].
    destruct (create_card_cases name quantity status supplier manufacturer
                cost location article responsible arrival_date notes self)
      as [[_ [e ->]]|[_ (card & -> & _)]]; simpl; lia.
  - cbn [perform]. by rewrite get_card_state.
  - destruct (perform_write_off_cases m self) as [->|(? & _ & ->)];
      simpl; lia.
  - destruct (_cards self !! m) as [card|] eqn:Hm;
      [|by rewrite perform_update_not_found].
    destruct (perform_update_cases (λ _, True) m kwargs self card)
      as [->|(? & _ & ->)]; simpl; auto; lia.
Qed.

Lemma perform_all_next_number cs self :
  _next_number self ≤ _next_number (perform_all cs self).
Proof.
  revert self. induction cs as [|c cs IH]; intros self; [done|].
  cbn [perform_all foldl].
  etransitivity; [apply (perform_next_number c)|apply IH].
Qed.

Lemma reachable_perform_all cs self :
  reachable self → reachable (perform_all cs self).
Proof.
  revert self. induction cs as [|c cs IH]; intros self Hreach; [done|].
  cbn [perform_all foldl]. apply IH. by constructor.
Qed.

End Counter.

(** ** More on the loop of [update_card] *)

Section UpdateMore.
Context {ucd : Unicode}.

Local Abbreviation entry_body n :=
  (fun '(field, value) =>
     match field_setters field with
     | Some setter => setter (n : Z) value
     | None =>
         card ← deref n;
         if bool_decide (is_Some (card !! field))
            && negb (bool_decide (field ∈ ["number"]))
         then setitem_card n field value
         else mret tt
     end).

(** An entry for a key of the card that has no setter and is not
    [number] is written as it is. *)
Lemma entry_body_unvalidated n field v self card :
  _cards self !! n = Some card →
  field_setters field = None →
  field ≠ "number" →
  is_Some (card !! field) →
  entry_body n (field, v) self
  = (Return tt,
     {| _cards := <[n := <[field := v]> card]> (_cards self);
        _next_number := _next_number self |}).
Proof.
  intros Hcard Hf Hnum Hin. simpl. rewrite Hf.
  unfold mbind, M_bind, bind, deref. rewrite Hcard.
  rewrite bool_decide_eq_true_2 by done.
  rewrite bool_decide_eq_false_2
    by (by intros ->%list_elem_of_singleton).
  simpl. by apply setitem_card_Some.
Qed.

(** An entry for [number] is skipped. *)
Lemma entry_body_number n v self card :
  _cards self !! n = Some card →
  entry_body n ("number", v) self = (Return tt, self).
Proof.
  intros Hcard. simpl.
  unfold mbind, M_bind, bind, deref. rewrite Hcard.
  by rewrite andb_false_r.
Qed.

Lemma update_loop_unvalidated n kwargs : ∀ self card self',
  _cards self !! n = Some card →
  for_each kwargs (entry_body n) self = (Return tt, self') →
  NoDup kwargs.*1 →
  ∃ card',
    _cards self' !! n = Some card'
    ∧ ∀ field v,
        (field, v) ∈ kwargs → field_setters field = None →
        field ≠ "number" → is_Some (card !! field) →
        card' !! field = Some v.
Proof.
  induction kwargs as [|[field v] kwargs IH]; intros self card self' Hcard.
  - intros Hloop _. injection Hloop as <-. exists card. split; [done|].
    intros ? ? Hin. by apply elem_of_nil in Hin.
  - cbn [for_each]. unfold mbind at 1, M_bind at 1, bind at 1.
    intros Hloop Hnodup. cbn in Hnodup.
    apply NoDup_cons in Hnodup as [Hnotin Hnodup].
    destruct (entry_body_cases n field v self card Hcard)
      as [(e1 & ? & Hr1 & _)|[[Hr1 Hf]|(v' & Hr1 & _)]].
    + by rewrite Hr1 in Hloop.
    + rewrite Hr1 in Hloop.
      destruct (IH _ _ _ Hcard Hloop Hnodup) as (card' & Hc' & Hst).
      exists card'. split; [done|].
      intros f w Hin Hfs Hnum Hsome.
      apply elem_of_cons in Hin as [Heq|Hin]; [|eauto].
      injection Heq as -> ->.
      rewrite (entry_body_unvalidated _ _ _ _ _ Hcard Hfs Hnum Hsome) in Hr1.
      apply (f_equal (λ r : result unit * ProductCard,
                        _cards r.2 !! n ≫= (.!! field))) in Hr1.
      cbn [snd _cards] in Hr1. rewrite lookup_insert_eq, Hcard in Hr1.
      cbn [mbind option_bind] in Hr1. rewrite lookup_insert_eq in Hr1.
      destruct Hsome as [w' Hw'].
      eapply update_loop_frame in Hloop as (card'' & -> & Hk & _); [|done].
      simpl in Hc'. rewrite lookup_insert_eq in Hc'. injection Hc' as ->.
      rewrite Hk by done.
      (* the write has left the ledger as it was: the field held [w] *)
      rewrite Hw' in Hr1. rewrite Hw'. done.
    + rewrite Hr1 in Hloop. pose proof Hloop as Hloop'.
      eapply IH in Hloop; [|simpl; apply lookup_insert_eq|done].
      destruct Hloop as (card' & Hc' & Hst).
      exists card'. split; [done|].
      intros f w Hin Hfs Hnum Hsome.
      apply elem_of_cons in Hin as [Heq|Hin].
      * injection Heq as -> ->.
        rewrite (entry_body_unvalidated _ _ _ _ _ Hcard Hfs Hnum Hsome)
          in Hr1.
        apply (f_equal (λ r : result unit * ProductCard,
                          _cards r.2 !! n ≫= (.!! field))) in Hr1.
        cbn [snd _cards] in Hr1. rewrite !lookup_insert_eq in Hr1.
        cbn [mbind option_bind] in Hr1. rewrite !lookup_insert_eq in Hr1.
        injection Hr1 as ->.
        eapply update_loop_frame in Hloop' as (card'' & -> & Hk & _);
          [|simpl; apply lookup_insert_eq].
        simpl in Hc'. rewrite lookup_insert_eq in Hc'. injection Hc' as ->.
        rewrite Hk by done. apply lookup_insert_eq.
      * apply Hst; [done..|]. by apply lookup_insert_is_Some'; right.
Qed.

Lemma update_loop_skip_number n kw1 v kw2 self card :
  _cards self !! n = Some card →
  for_each (kw1 ++ ("number", v) :: kw2) (entry_body n) self
  = for_each (kw1 ++ kw2) (entry_body n) self.
Proof.
  intros Hcard. rewrite !for_each_app.
  destruct (for_each kw1 (entry_body n) self) as [r self1] eqn:Hloop.
  destruct (update_loop_frame n kw1 _ _ _ _ Hcard Hloop)
    as (card1 & -> & _).
  destruct r as [[]|e]; [|done].
  cbn [for_each]. unfold mbind at 1, M_bind at 1, bind at 1.
  by erewrite entry_body_number by (simpl; apply lookup_insert_eq).
Qed.

End UpdateMore.

(** ** The pattern of [_set_arrival_date] *)

Section DatePattern.
Context {ucd : Unicode}.

Ltac eat_class H :=
  match type of H with
  | match (if ?b then _ else _) with _ => _ end = true =>
      destruct b eqn:?; [|done]
  | match (match ?l with [] => _ | _ :: _ => _ end) with _ => _ end = true =>
      destruct l as [|? ?]; [done|]
  end.

(** The strings that the pattern accepts: two digits, a dot, two digits, a
    dot, four digits, and then the end of the string or one line feed. *)
Lemma date_accepted_shape s :
  date_accepted s = true
  ↔ ∃ d1 d2 m1 m2 y1 y2 y3 y4 tail,
      s = [d1; d2; 46; m1; m2; 46; y1; y2; y3; y4]%N ++ tail
      ∧ forallb isdecimal [d1; d2; m1; m2; y1; y2; y3; y4] = true
      ∧ (tail = [] ∨ tail = [10%N]).
Proof.
  split.
  - unfold date_accepted, date_classes. intros H.
    cbn [match_classes] in H. repeat eat_class H. cbn beta iota in H.
    repeat match goal with
           | E : dot _ = true |- _ => apply N.eqb_eq in E as ->
           end.
    match type of H with
    | at_dollar ?rest = true =>
        do 8 eexists; exists rest; split_and!; [done| |];
        [ cbn [forallb];
          repeat match goal with E : isdecimal _ = true |- _ =>
                   rewrite E; clear E end;
          done
        | destruct rest as [|c [|? ?]]; simpl in H; [by left| |done];
          apply N.eqb_eq in H as ->; by right ]
    end.
  - intros (d1 & d2 & m1 & m2 & y1 & y2 & y3 & y4 & tail & -> & Hd & Htail).
    cbn [forallb] in Hd.
    repeat apply andb_prop in Hd as [? Hd].
    unfold date_accepted, date_classes. cbn [app match_classes].
    repeat match goal with E : isdecimal _ = true |- _ =>
             rewrite E; clear E end.
    cbn.
    by destruct Htail as [->| ->].
Qed.

End DatePattern.

(** * Further properties, stated *)

Section Extras.
Context {ucd : Unicode}.

(** X1.  When no setter rejects its argument, [create_card] returns the
    counter and advances it by one, and [get_card] on the returned number
    then returns the card of the arguments: the status lower-cased, the
    article stripped, the other arguments as they were passed. *)
Theorem create_then_get name quantity status supplier manufacturer cost
    location article responsible arrival_date notes self :
  some_setter_raises name quantity status supplier cost article arrival_date
    (staged manufacturer location responsible notes self) = false →
  ∃ self',
    create_card name quantity status supplier manufacturer cost location
      article responsible arrival_date notes self
    = (Return (_next_number self), self')
    ∧ _next_number self' = _next_number self + 1
    ∧ get_card (_next_number self) self'
      = (Return (created_card (_next_number self) name quantity status
                   supplier manufacturer cost location article responsible
                   arrival_date notes), self').
Proof.
  rewrite some_setter_raises_guards. intros Hg.
  repeat apply orb_false_elim in Hg as [Hg ?].
  rewrite create_card_eval. cbv zeta. unfold date_accepted.
  repeat match goal with H : _ = false |- _ => rewrite H; clear H end.
  eexists. split_and!; [done..|].
  unfold get_card. simpl. by rewrite lookup_insert_eq.
Qed.

(** X2.  The result of [create_card] is decided by the checks of the
    setters in the order name, quantity, status, supplier, cost, article,
    date: the error raised wraps the text of the first check that fails,
    and the counter is returned when none fails. *)
Theorem create_card_first_error name quantity status supplier manufacturer
    cost location article responsible arrival_date notes self :
  (create_card name quantity status supplier manufacturer cost location
     article responsible arrival_date notes self).1
  = let failed t := Raise (ValueError (CreateText (ValueError (Text t)))) in
    if len (strip name) <? 2 then failed name_text
    else if quantity <? 0 then failed quantity_text
    else if negb (in_STATUSES (str_lower status)) then failed status_text
    else if len (strip supplier) <? 2 then failed supplier_text
    else if SFltb cost (S754_zero false) then failed cost_text
    else if negb (truthy (VStr (strip article))) then failed article_text
    else if negb (date_accepted arrival_date) then failed arrival_date_text
    else Return (_next_number self).
Proof.
  rewrite create_card_eval. cbv zeta.
  repeat match goal with
         | |- context [if ?b then _ else _] => destruct b; [done|]
         end.
  done.
Qed.

(** X3.  The numbers of two [create_card] that return are strictly
    increasing, whatever calls are made between them. *)
Theorem successful_creates_increase
    name quantity status supplier manufacturer cost location article
    responsible arrival_date notes
    name' quantity' status' supplier' manufacturer' cost' location' article'
    responsible' arrival_date' notes' cs self n1 self1 n2 self2 :
  create_card name quantity status supplier manufacturer cost location
    article responsible arrival_date notes self = (Return n1, self1) →
  create_card name' quantity' status' supplier' manufacturer' cost' location'
    article' responsible' arrival_date' notes' (perform_all cs self1)
  = (Return n2, self2) →
  n1 < n2.
Proof.
  intros [-> Hnext]%create_card_returns [-> _]%create_card_returns.
  pose proof (perform_all_next_number cs self1). lia.
Qed.

(** X4.  In every reachable ledger the fields of every stored card are as
    the setters leave them: the number is the one the card is stored under,
    name and supplier have two characters or more once stripped, quantity
    and cost are numbers that are not below 0, the status is a key of
    [STATUSES], the date is accepted by the pattern, the article is a
    stripped string that is not empty. *)
Theorem reachable_cards_validated self k card :
  reachable self →
  _cards self !! k = Some card →
  validated k card.
Proof.
  intros (_ & _ & Hcards)%reachable_cards Hk. by apply Hcards.
Qed.

(** X5.  In every reachable ledger a stored card has the twelve keys of
    the dictionary that [create_card] builds and no other: no call adds a
    key to a card or removes one. *)
Theorem reachable_cards_keys self k card :
  reachable self →
  _cards self !! k = Some card →
  dom card = list_to_set card_keys.
Proof.
  intros (_ & _ & Hcards)%reachable_cards Hk.
  by destruct (Hcards _ _ Hk).
Qed.

(** X6.  In every reachable ledger the stored numbers are exactly the
    numbers from 1 to below the counter. *)
Theorem reachable_numbers_contiguous self k :
  reachable self →
  is_Some (_cards self !! k) ↔ 1 ≤ k < _next_number self.
Proof.
  intros (_ & Hdom & _)%reachable_cards. apply Hdom.
Qed.

(** X7.  A card stored in a reachable ledger stays stored, under the same
    number, whatever calls follow: no call removes a card. *)
Theorem stored_card_persists cs self k :
  reachable self →
  is_Some (_cards self !! k) →
  is_Some (_cards (perform_all cs self) !! k).
Proof.
  intros Hreach Hk.
  pose proof (reachable_perform_all cs _ Hreach) as Hreach'.
  apply reachable_cards in Hreach as (_ & Hdom & _).
  apply reachable_cards in Hreach' as (_ & Hdom' & _).
  apply Hdom'. apply Hdom in Hk.
  pose proof (perform_all_next_number cs self). lia.
Qed.

(** X8.  A getter reads back what the setter of its field has stored: when
    the setter returns, the getter then returns the argument itself for
    name, quantity, supplier, cost and date, the lower-cased argument for
    the status, and the stripped argument for the article. *)
Theorem getter_after_setter n v self self' :
  (_set_name n v self = (Return tt, self') →
   _get_name n self' = (Return v, self'))
  ∧ (_set_quantity n v self = (Return tt, self') →
     _get_quantity n self' = (Return v, self'))
  ∧ (_set_status n v self = (Return tt, self') →
     ∃ s, v = VStr s
          ∧ _get_status n self' = (Return (VStr (str_lower s)), self'))
  ∧ (_set_supplier n v self = (Return tt, self') →
     _get_supplier n self' = (Return v, self'))
  ∧ (_set_cost n v self = (Return tt, self') →
     _get_cost n self' = (Return v, self'))
  ∧ (_set_arrival_date n v self = (Return tt, self') →
     _get_arrival_date n self' = (Return v, self'))
  ∧ (_set_article n v self = (Return tt, self') →
     ∃ s, v = VStr s
          ∧ _get_article n self' = (Return (VStr (strip s)), self')).
Proof.
  assert (∀ key w,
    setitem_card n key w self = (Return tt, self') →
    (card ← get_card n; getitem card key) self' = (Return w, self'))
    as Hread.
  { intros key w Hset.
    destruct (_cards self !! n) as [card|] eqn:Hn;
      [|by rewrite setitem_card_None in Hset].
    rewrite (setitem_card_Some _ _ _ _ card) in Hset by done.
    injection Hset as <-.
    unfold mbind, M_bind, bind, get_card, getitem. simpl.
    by rewrite !lookup_insert_eq. }
  split_and!.
  - destruct (_set_name_cases v) as [(e & _ & Hr)|[_ Hs]];
      [by rewrite Hr|rewrite Hs; apply Hread].
  - destruct (_set_quantity_cases v) as [(e & _ & Hr)|Hs];
      [by rewrite Hr|rewrite Hs; apply Hread].
  - destruct (_set_status_cases v) as [(e & _ & Hr)|(s & -> & _ & Hs)];
      [by rewrite Hr|rewrite Hs].
    intros Hset. exists s. split; [done|]. by apply Hread.
  - destruct (_set_supplier_cases v) as [(e & _ & Hr)|[_ Hs]];
      [by rewrite Hr|rewrite Hs; apply Hread].
  - destruct (_set_cost_cases v) as [(e & _ & Hr)|Hs];
      [by rewrite Hr|rewrite Hs; apply Hread].
  - destruct (_set_arrival_date_cases v) as [(e & _ & Hr)|Hs];
      [by rewrite Hr|rewrite Hs; apply Hread].
  - destruct (_set_article_cases v) as [(e & _ & Hr)|(s & -> & Hs)];
      [by rewrite Hr|rewrite Hs].
    intros Hset. exists s. split; [done|]. by apply Hread.
Qed.

(** X9.  On a number that is not stored, [get_card], the seven getters,
    [write_off_card] and [update_card], whatever its payload, raise the
    not-found error for that number, which [update_card] does not wrap, and
    leave the ledger as it was. *)
Theorem not_found_everywhere n kwargs self :
  _cards self !! n = None →
  let not_found {A} : result A * ProductCard :=
    (Raise (ValueError (NotFoundText n)), self) in
  get_card n self = not_found
  ∧ _get_name n self = not_found
  ∧ _get_quantity n self = not_found
  ∧ _get_status n self = not_found
  ∧ _get_supplier n self = not_found
  ∧ _get_cost n self = not_found
  ∧ _get_arrival_date n self = not_found
  ∧ _get_article n self = not_found
  ∧ write_off_card n self = not_found
  ∧ update_card n kwargs self = not_found.
Proof.
  intros Hn not_found. unfold not_found.
  unfold _get_name, _get_quantity, _get_status, _get_supplier, _get_cost,
    _get_arrival_date, _get_article, write_off_card, update_card,
    mbind, M_bind, bind, get_card.
  rewrite Hn. by split_and!.
Qed.

(** X10.  The setters check before they look the card up: called on a
    value that the setter accepts and a number that is not stored, a setter
    raises [KeyError], not the not-found error, and leaves the ledger as it
    was. *)
Theorem setter_missing_card field setter v n0 self0 self0' n self :
  field_setters field = Some setter →
  setter n0 v self0 = (Return tt, self0') →
  _cards self !! n = None →
  setter n v self = (Raise KeyError, self).
Proof.
  intros Hf Hok Hn.
  destruct (field_setters_cases field setter v Hf) as [[e Hr]|(v' & _ & Hs)].
  - by rewrite Hr in Hok.
  - rewrite Hs. by apply setitem_card_None.
Qed.

(** X11.  A registered setter touches nothing but its own field of the
    card it is called on: when it raises the ledger is as it was, and when
    it returns the counter, the other cards and the other fields of the
    card are as they were. *)
Theorem setter_frame field setter n v self r self' :
  field_setters field = Some setter →
  setter n v self = (r, self') →
  (r = Return tt ∨ self' = self)
  ∧ _next_number self' = _next_number self
  ∧ ∀ m key, m ≠ n ∨ key ≠ field →
             field_of self' m key = field_of self m key.
Proof.
  intros Hf Hset.
  destruct (field_setters_cases field setter v Hf) as [[e Hr]|(v' & _ & Hs)].
  - rewrite Hr in Hset. injection Hset as <- <-. auto.
  - rewrite Hs in Hset.
    destruct (_cards self !! n) as [card|] eqn:Hn.
    + rewrite (setitem_card_Some _ _ _ _ card) in Hset by done.
      injection Hset as <- <-. split_and!; [by left|done|].
      intros m key Hne. unfold field_of. simpl.
      destruct (decide (m = n)) as [->|?]; [|by rewrite lookup_insert_ne].
      rewrite lookup_insert_eq, Hn. simpl.
      apply lookup_insert_ne. by destruct Hne.
    + rewrite setitem_card_None in Hset by done.
      injection Hset as <- <-. auto.
Qed.

(** X12.  [update_card] reports the first failure in the order of the
    payload: when no entry before it fails, the error raised wraps the
    exception that the setter raises on the entry. *)
Theorem update_card_first_error n kw1 field v kw2 setter e self1 self card :
  _cards self !! n = Some card →
  existsb (entry_fails n self) kw1 = false →
  field_setters field = Some setter →
  setter n v self = (Raise e, self1) →
  update_card n (kw1 ++ (field, v) :: kw2) self
  = (Raise (ValueError (UpdateText e)), self).
Proof.
  intros Hcard Hkw1 Hf Hraise.
  rewrite (update_card_unfold _ _ _ _ Hcard), for_each_app.
  destruct (update_loop_returns n self kw1 (mk_is_Some _ _ Hcard) Hkw1
              self card Hcard) as [s1 Hloop].
  rewrite Hloop.
  destruct (update_loop_frame _ _ _ _ _ _ Hcard Hloop) as (card1 & -> & _).
  cbn [for_each]. unfold mbind at 1, M_bind at 1, bind at 1. rewrite Hf.
  destruct (field_setters_cases field setter v Hf) as [[e0 Hr]|(v' & _ & Hs)].
  - rewrite Hr in Hraise. injection Hraise as -> _. rewrite Hr. simpl.
    f_equal. rewrite insert_insert_eq, insert_id by done.
    apply ProductCard_eta.
  - by rewrite Hs, (setitem_card_Some _ _ _ _ card) in Hraise.
Qed.

(** X13.  The fields without a setter are not checked: after an
    [update_card] that returns, a key of the card that has no setter and is
    not [number] holds the value of its entry, whatever that value is. *)
Theorem update_card_unvalidated_fields n kwargs self card self' field v :
  _cards self !! n = Some card →
  update_card n kwargs self = (Return tt, self') →
  NoDup kwargs.*1 →
  (field, v) ∈ kwargs →
  field_setters field = None →
  field ≠ "number" →
  is_Some (card !! field) →
  field_of self' n field = Some v.
Proof.
  intros Hcard Hupdate Hnodup Hin Hf Hnum Hsome.
  rewrite (update_card_unfold _ _ _ _ Hcard) in Hupdate.
  destruct (for_each kwargs _ self) as [[[]|e] s1] eqn:Hloop; [|done].
  injection Hupdate as <-.
  destruct (update_loop_unvalidated _ _ _ _ _ Hcard Hloop Hnodup)
    as (card' & Hc' & Hst).
  unfold field_of. rewrite Hc'. simpl. by apply Hst.
Qed.

(** X14.  An entry for [number] is skipped without an error:
    [update_card] ends as it does on the payload without the entry. *)
Theorem update_card_skips_number n kw1 v kw2 self card :
  _cards self !! n = Some card →
  update_card n (kw1 ++ ("number", v) :: kw2) self
  = update_card n (kw1 ++ kw2) self.
Proof.
  intros Hcard. rewrite !(update_card_unfold _ _ _ _ Hcard).
  by rewrite (update_loop_skip_number _ _ _ _ _ _ Hcard).
Qed.

(** X15.  On a stored card [update_card] returns exactly when no entry of
    the payload fails its validator. *)
Theorem update_card_returns_iff n kwargs self card :
  _cards self !! n = Some card →
  (update_card n kwargs self).1 = Return tt
  ↔ existsb (entry_fails n self) kwargs = false.
Proof.
  intros Hcard. rewrite (update_card_unfold _ _ _ _ Hcard).
  destruct (existsb (entry_fails n self) kwargs) eqn:Hex.
  - destruct (update_loop_raises n self kwargs (mk_is_Some _ _ Hcard) Hex
                self card Hcard) as (e & s1 & ->).
    by split.
  - destruct (update_loop_returns n self kwargs (mk_is_Some _ _ Hcard) Hex
                self card Hcard) as (s1 & ->).
    by split.
Qed.

(** X16.  A card cannot be written off twice: after a [write_off_card]
    that returns, a second one on the same number raises the policy error
    and leaves the ledger as it is. *)
Theorem write_off_card_twice n self self1 :
  write_off_card n self = (Return true, self1) →
  write_off_card n self1
  = (Raise (ValueError (Text write_off_text)), self1).
Proof.
  intros Hfirst.
  destruct (_cards self !! n) as [card|] eqn:Hn;
    [|by rewrite write_off_card_not_found in Hfirst].
  destruct (card !! "status") as [st|] eqn:Hs;
    [|by erewrite write_off_card_no_status in Hfirst].
  destruct (decide (st = VStr (u "учтено"))) as [->|Hne];
    [|by erewrite write_off_card_refused in Hfirst].
  erewrite write_off_card_done in Hfirst by done.
  injection Hfirst as <-.
  eapply (write_off_card_refused _ _ _ (VStr (u "списано"))).
  - simpl. apply lookup_insert_eq.
  - by rewrite lookup_insert_ne, lookup_insert_eq.
  - intros Heq. vm_compute in Heq. discriminate.
Qed.

(** X17.  [update_card] on a stored card changes nothing but fields of that
    card that the payload names: whether it returns or raises, the counter,
    the other cards and the fields of the card that have no entry are as
    they were. *)
Theorem update_card_frame n kwargs self card r self' :
  _cards self !! n = Some card →
  update_card n kwargs self = (r, self') →
  _next_number self' = _next_number self
  ∧ ∀ m key, m ≠ n ∨ key ∉ kwargs.*1 →
             field_of self' m key = field_of self m key.
Proof.
  intros Hcard Hupdate.
  destruct (update_card_cases n kwargs self card Hcard)
    as [(e & s1 & _ & Hr)|(card' & _ & Hr & Hk & _)];
    rewrite Hr in Hupdate; injection Hupdate as <- <-; [done|].
  split; [done|]. intros m key Hne. unfold field_of. simpl.
  destruct (decide (m = n)) as [->|?]; [|by rewrite lookup_insert_ne].
  rewrite lookup_insert_eq, Hcard. simpl.
  apply Hk. by destruct Hne.
Qed.

(** X18.  [_set_arrival_date] accepts a string for a stored card exactly
    when the string is two digits, a dot, two digits, a dot and four
    digits, followed by nothing or by one line feed; no check relates the
    digits to a calendar. *)
Theorem arrival_date_accepted n s self card :
  _cards self !! n = Some card →
  raises (_set_arrival_date n (VStr s)) self = false
  ↔ ∃ d1 d2 m1 m2 y1 y2 y3 y4 tail,
      s = [d1; d2; 46; m1; m2; 46; y1; y2; y3; y4]%N ++ tail
      ∧ forallb isdecimal [d1; d2; m1; m2; y1; y2; y3; y4] = true
      ∧ (tail = [] ∨ tail = [10%N]).
Proof.
  intros Hcard. rewrite <- date_accepted_shape.
  unfold raises. rewrite _set_arrival_date_str.
  destruct (date_accepted s); simpl; [|done].
  by rewrite (setitem_card_Some _ _ _ _ card).
Qed.

(** X19.  For every card of a reachable ledger the status that
    [display_card] and the listing print is the label that [STATUSES] gives
    for the card's status: the lookup finds the key, and the raw status is
    never printed in its place. *)
Theorem reachable_status_label self k card :
  reachable self →
  _cards self !! k = Some card →
  ∃ key label,
    card !! "status" = Some (VStr key)
    ∧ (key, label) ∈ STATUSES
    ∧ status_label card self = (Return (VStr label), self).
Proof.
  intros [_ Hst]%reachable_invariant Hk.
  destruct (Hst _ _ Hk) as (v & Hv & s & -> & Hin).
  apply bool_decide_eq_true in Hin. simpl in Hin.
  unfold status_label, mbind, M_bind, bind, getitem. rewrite Hv.
  repeat (apply elem_of_cons in Hin as [->|Hin];
          [eexists _, _; (split; [done|]); (split; [|by vm_compute]);
           by apply (bool_decide_unpack _); vm_compute|]).
  by apply elem_of_nil in Hin.
Qed.

(** X20.  After an [update_card] that returns, the fields quantity, cost
    and date hold the values of their entries, which for quantity and cost
    are numbers, integers or floats alike, that are not below 0, and the
    status holds the lower-cased string of its entry. *)
Theorem update_card_stores_checked n kwargs self self' :
  update_card n kwargs self = (Return tt, self') →
  NoDup kwargs.*1 →
  (∀ v, ("quantity", v) ∈ kwargs →
        field_of self' n "quantity" = Some v ∧ lt0 v = Return false)
  ∧ (∀ v, ("cost", v) ∈ kwargs →
          field_of self' n "cost" = Some v ∧ lt0 v = Return false)
  ∧ (∀ v, ("arrival_date", v) ∈ kwargs →
          field_of self' n "arrival_date" = Some v)
  ∧ (∀ v, ("status", v) ∈ kwargs →
          ∃ s, v = VStr s
               ∧ field_of self' n "status" = Some (VStr (str_lower s))).
Proof.
  intros Hupdate Hnodup.
  destruct (_cards self !! n) as [card|] eqn:Hcard; cycle 1.
  { unfold update_card, mbind, M_bind, bind, get_card in Hupdate.
    by rewrite Hcard in Hupdate. }
  destruct (update_card_cases n kwargs self card Hcard)
    as [(e & ? & _ & Hr)|(card' & Hloop & Hr & _)];
    rewrite Hr in Hupdate; [done|].
  injection Hupdate as <-.
  destruct (update_loop_stored _ _ _ _ _ Hcard Hloop Hnodup)
    as (card'' & Hc & Hstored).
  unfold field_of. rewrite Hc. simpl. split_and!; intros v Hin.
  - destruct (Hstored "quantity" v _set_quantity Hin eq_refl)
      as (v' & Hs' & ->).
    by destruct (_set_quantity_stores v v' Hs') as [-> ?].
  - destruct (Hstored "cost" v _set_cost Hin eq_refl) as (v' & Hs' & ->).
    by destruct (_set_cost_stores v v' Hs') as [-> ?].
  - destruct (Hstored "arrival_date" v _set_arrival_date Hin eq_refl)
      as (v' & Hs' & ->).
    by destruct (_set_arrival_date_stores v v' Hs') as (s & -> & -> & _).
  - destruct (Hstored "status" v _set_status Hin eq_refl) as (v' & Hs' & ->).
    destruct (_set_status_stores v v' Hs') as (s & -> & -> & _). eauto.
Qed.

End Extras.

(** * The further properties on the ledgers of "Bolt M6" and "Nut M6" *)

Lemma create_then_get_witness :
  some_setter_raises (u " Nut M6 ") 40 (u "УЧТЕНО") (u "AcmeCo") cost_half
    (u " ART-2 ") (u "31.13.2024")
    (staged (u "AcmeMfg") (u "Shelf B") (u "J.Doe") [] ledger_pending)
  = false
  ∧ ∃ self',
      create_card (u " Nut M6 ") 40 (u "УЧТЕНО") (u "AcmeCo") (u "AcmeMfg")
        cost_half (u "Shelf B") (u " ART-2 ") (u "J.Doe") (u "31.13.2024") []
        ledger_pending
      = (Return (_next_number ledger_pending), self')
      ∧ _next_number self' = _next_number ledger_pending + 1
      ∧ get_card (_next_number ledger_pending) self'
        = (Return (created_card (_next_number ledger_pending) (u " Nut M6 ")
                     40 (u "УЧТЕНО") (u "AcmeCo") (u "AcmeMfg") cost_half
                     (u "Shelf B") (u " ART-2 ") (u "J.Doe") (u "31.13.2024")
                     []), self').
Proof.
  split; [vm_compute; reflexivity|].
  apply create_then_get. vm_compute. reflexivity.
Defined.

Lemma successful_creates_increase_witness :
  create_card (u "Bolt M6") 100 (u "ожидание") (u "AcmeCo") (u "AcmeMfg")
    cost_half (u "Shelf A") (u "ART-1") (u "J.Doe") (u "01.01.2024") [] init
  = (Return 1, ledger_pending)
  ∧ 1 < 2.
Proof.
  split; [vm_compute; reflexivity|].
  eapply (successful_creates_increase
            (u "Bolt M6") 100 (u "ожидание") (u "AcmeCo") (u "AcmeMfg")
            cost_half (u "Shelf A") (u "ART-1") (u "J.Doe") (u "01.01.2024")
            []
            (u " Nut M6 ") 40 (u "УЧТЕНО") (u "AcmeCo") (u "AcmeMfg")
            cost_half (u "Shelf B") (u " ART-2 ") (u "J.Doe")
            (u "31.13.2024") []
            [UpdateCard 1 [("status", VStr (u "учтено"))]; WriteOffCard 1;
             create_nameless]
            init).
  - vm_compute. reflexivity.
  - vm_compute. reflexivity.
Defined.

Lemma reachable_cards_validated_witness :
  _cards ledger_two !! 2 = Some (card_of ledger_two 2)
  ∧ validated 2 (card_of ledger_two 2).
Proof.
  split; [vm_compute; reflexivity|].
  apply (reachable_cards_validated ledger_two).
  - repeat apply reachable_call. apply reachable_init.
  - vm_compute. reflexivity.
Defined.

Lemma reachable_cards_keys_witness :
  _cards ledger_written_off !! 1 = Some (card_of ledger_written_off 1)
  ∧ dom (card_of ledger_written_off 1) = list_to_set card_keys.
Proof.
  split; [vm_compute; reflexivity|].
  apply (reachable_cards_keys ledger_written_off 1).
  - repeat apply reachable_call. apply reachable_init.
  - vm_compute. reflexivity.
Defined.

Lemma reachable_numbers_contiguous_witness :
  is_Some (_cards ledger_two !! 2) ↔ 1 ≤ 2 < _next_number ledger_two.
Proof.
  apply reachable_numbers_contiguous.
  repeat apply reachable_call. apply reachable_init.
Defined.

Lemma stored_card_persists_witness :
  _cards ledger_registered !! 1 = Some (card_of ledger_registered 1)
  ∧ is_Some (_cards (perform_all [WriteOffCard 1; create_nameless;
                                   UpdateCard 1 [("name", VStr [])]]
                       ledger_registered) !! 1).
Proof.
  split; [vm_compute; reflexivity|].
  apply stored_card_persists.
  - repeat apply reachable_call. apply reachable_init.
  - eexists. vm_compute. reflexivity.
Defined.

Lemma getter_after_setter_witness :
  ∃ s, VStr (u " X-9 ") = VStr s
       ∧ _get_article 1
           (_set_article 1 (VStr (u " X-9 ")) ledger_pending).2
         = (Return (VStr (strip s)),
            (_set_article 1 (VStr (u " X-9 ")) ledger_pending).2).
Proof.
  apply (getter_after_setter 1 (VStr (u " X-9 ")) ledger_pending).
  vm_compute. reflexivity.
Defined.

Lemma not_found_everywhere_witness :
  _cards ledger_pending !! 7 = None
  ∧ update_card 7 [("quantity", VInt (-5))] ledger_pending
    = (Raise (ValueError (NotFoundText 7)), ledger_pending).
Proof.
  split; [vm_compute; reflexivity|].
  apply (not_found_everywhere 7 [("quantity", VInt (-5))] ledger_pending).
  vm_compute. reflexivity.
Defined.

Lemma setter_missing_card_witness :
  (_set_quantity 1 (VInt 3) ledger_pending).1 = Return tt
  ∧ _set_quantity 7 (VInt 3) ledger_pending = (Raise KeyError, ledger_pending).
Proof.
  split; [vm_compute; reflexivity|].
  eapply (setter_missing_card "quantity" _set_quantity (VInt 3) 1
            ledger_pending).
  - reflexivity.
  - vm_compute. reflexivity.
  - vm_compute. reflexivity.
Defined.

Lemma setter_frame_witness :
  _next_number (_set_status 1 (VStr (u "Учтено")) ledger_two).2
  = _next_number ledger_two
  ∧ field_of (_set_status 1 (VStr (u "Учтено")) ledger_two).2 2 "status"
    = field_of ledger_two 2 "status"
  ∧ field_of (_set_status 1 (VStr (u "Учтено")) ledger_two).2 1 "name"
    = field_of ledger_two 1 "name".
Proof.
  destruct (setter_frame "status" _set_status 1 (VStr (u "Учтено")) ledger_two
              (_set_status 1 (VStr (u "Учтено")) ledger_two).1
              (_set_status 1 (VStr (u "Учтено")) ledger_two).2)
    as (_ & Hnext & Hother).
  - reflexivity.
  - vm_compute. reflexivity.
  - split; [exact Hnext|]. split; apply Hother.
    + left. discriminate.
    + right. discriminate.
Defined.

Lemma update_card_first_error_witness :
  existsb (entry_fails 1 ledger_pending) [("notes", VStr (u "n"))] = false
  ∧ update_card 1
      [("notes", VStr (u "n")); ("quantity", VInt (-5)); ("name", VStr [])]
      ledger_pending
    = (Raise (ValueError (UpdateText (ValueError (Text quantity_text)))),
       ledger_pending).
Proof.
  split; [vm_compute; reflexivity|].
  eapply (update_card_first_error 1 [("notes", VStr (u "n"))] "quantity"
            (VInt (-5)) [("name", VStr [])] _set_quantity).
  - vm_compute. reflexivity.
  - vm_compute. reflexivity.
  - reflexivity.
  - vm_compute. reflexivity.
Defined.

Lemma update_card_unvalidated_fields_witness :
  (update_card 1 [("notes", VNone); ("quantity", VInt 3)] ledger_pending).1
  = Return tt
  ∧ field_of
      (update_card 1 [("notes", VNone); ("quantity", VInt 3)]
         ledger_pending).2 1 "notes"
    = Some VNone.
Proof.
  split; [vm_compute; reflexivity|].
  eapply (update_card_unvalidated_fields 1
            [("notes", VNone); ("quantity", VInt 3)] ledger_pending).
  - vm_compute. reflexivity.
  - vm_compute. reflexivity.
  - apply (bool_decide_unpack _). vm_compute. reflexivity.
  - apply list_elem_of_here.
  - reflexivity.
  - discriminate.
  - eexists. vm_compute. reflexivity.
Defined.

Lemma update_card_skips_number_witness :
  _cards ledger_pending !! 1 = Some (card_of ledger_pending 1)
  ∧ update_card 1 [("notes", VStr (u "n")); ("number", VInt 9)] ledger_pending
    = update_card 1 [("notes", VStr (u "n"))] ledger_pending.
Proof.
  split; [vm_compute; reflexivity|].
  eapply (update_card_skips_number 1 [("notes", VStr (u "n"))] (VInt 9) []
            ledger_pending).
  vm_compute. reflexivity.
Defined.

Lemma update_card_returns_iff_witness :
  _cards ledger_pending !! 1 = Some (card_of ledger_pending 1)
  ∧ ((update_card 1 [("cost", VInt 2); ("status", VStr (u "СПИСАНО"))]
        ledger_pending).1 = Return tt
     ↔ existsb (entry_fails 1 ledger_pending)
         [("cost", VInt 2); ("status", VStr (u "СПИСАНО"))] = false).
Proof.
  split; [vm_compute; reflexivity|].
  eapply update_card_returns_iff.
  vm_compute. reflexivity.
Defined.

Lemma write_off_card_twice_witness :
  write_off_card 1 ledger_registered = (Return true, ledger_written_off)
  ∧ write_off_card 1 ledger_written_off
    = (Raise (ValueError (Text write_off_text)), ledger_written_off).
Proof.
  split; [vm_compute; reflexivity|].
  apply (write_off_card_twice 1 ledger_registered).
  vm_compute. reflexivity.
Defined.

Lemma update_card_frame_witness :
  _cards ledger_two !! 1 = Some (card_of ledger_two 1)
  ∧ _next_number
      (update_card 1 [("name", VStr (u "Bolt M8"))] ledger_two).2
    = _next_number ledger_two
  ∧ field_of (update_card 1 [("name", VStr (u "Bolt M8"))] ledger_two).2
      2 "name"
    = field_of ledger_two 2 "name"
  ∧ field_of (update_card 1 [("name", VStr (u "Bolt M8"))] ledger_two).2
      1 "supplier"
    = field_of ledger_two 1 "supplier".
Proof.
  split; [vm_compute; reflexivity|].
  destruct (update_card_frame 1 [("name", VStr (u "Bolt M8"))] ledger_two
              (card_of ledger_two 1)
              (update_card 1 [("name", VStr (u "Bolt M8"))] ledger_two).1
              (update_card 1 [("name", VStr (u "Bolt M8"))] ledger_two).2)
    as [Hnext Hother].
  - vm_compute. reflexivity.
  - vm_compute. reflexivity.
  - split; [exact Hnext|]. split; apply Hother.
    + left. discriminate.
    + right. apply (bool_decide_unpack _). vm_compute. reflexivity.
Defined.

Lemma arrival_date_accepted_witness :
  _cards ledger_pending !! 1 = Some (card_of ledger_pending 1)
  ∧ (raises (_set_arrival_date 1 (VStr (u "99.99.9999"))) ledger_pending
     = false
     ↔ ∃ d1 d2 m1 m2 y1 y2 y3 y4 tail,
         u "99.99.9999" = [d1; d2; 46; m1; m2; 46; y1; y2; y3; y4]%N ++ tail
         ∧ forallb isdecimal [d1; d2; m1; m2; y1; y2; y3; y4] = true
         ∧ (tail = [] ∨ tail = [10%N])).
Proof.
  split; [vm_compute; reflexivity|].
  eapply arrival_date_accepted.
  vm_compute. reflexivity.
Defined.

Lemma reachable_status_label_witness :
  _cards ledger_two !! 2 = Some (card_of ledger_two 2)
  ∧ ∃ key label,
      card_of ledger_two 2 !! "status" = Some (VStr key)
      ∧ (key, label) ∈ STATUSES
      ∧ status_label (card_of ledger_two 2) ledger_two
        = (Return (VStr label), ledger_two).
Proof.
  split; [vm_compute; reflexivity|].
  apply (reachable_status_label ledger_two 2).
  - repeat apply reachable_call. apply reachable_init.
  - vm_compute. reflexivity.
Defined.

Lemma update_card_stores_checked_witness :
  (update_card 1 [("quantity", VFloat cost_half)] ledger_pending).1 = Return tt
  ∧ field_of (update_card 1 [("quantity", VFloat cost_half)] ledger_pending).2
      1 "quantity"
    = Some (VFloat cost_half).
Proof.
  split; [vm_compute; reflexivity|].
  destruct (update_card_stores_checked 1 [("quantity", VFloat cost_half)]
              ledger_pending
              (update_card 1 [("quantity", VFloat cost_half)]
                 ledger_pending).2) as (Hq & _).
  - vm_compute. reflexivity.
  - apply NoDup_singleton.
  - apply Hq. apply list_elem_of_here.
Defined.
